(** * Weather data cleaning pipeline (weather_data_pipeline.py)

    A shallow embedding of the cleaning stages of the pipeline and of the
    summary report, with the properties of its specification.

    Conventions of the embedding.
    - A pandas DataFrame is the list of its rows, in index order; a column
      that does not exist yet (temperature_fahrenheit before
      add_fahrenheit_column) is a column of missing values.
    - A float64 cell is [option Qc]: [None] is NaN, [Some q] an exact
      rational.  Sums, means and rounding are the exact ones, so the
      rounding error of binary floating point is outside the model.
    - An object cell (date, weather_condition) is a [cell]: NaN, a string
      or some other Python object.  Both columns have the object dtype,
      and city is a string on every row.  Strings are sequences of ASCII
      characters; [\d] and the case mappings are the ASCII ones.
    - Printing and the file system (create_output_dir, ingest_data, the
      report file, the chart) are not modelled. *)

From Stdlib Require Import QArith Qround Qcanon String Ascii Lqa.
From stdpp Require Import base strings numbers list sorting.

Local Open Scope Qc_scope.
Local Open Scope nat_scope.

(** ** Data model *)

Inductive cell : Type :=
  | NaN
  | Str (s : string)
  | Num (q : Qc).

#[global] Instance cell_eq_dec : EqDecision cell.
Proof. solve_decision. Defined.

Record row : Type := mkRow {
  city : string;
  date : cell;
  weather_condition : cell;
  temperature_celsius : option Qc;
  humidity_percent : option Qc;
  wind_speed_kph : option Qc;
  temperature_fahrenheit : option Qc
}.

#[global] Instance row_eq_dec : EqDecision row.
Proof. solve_decision. Defined.

Definition set_date (v : cell) (r : row) : row :=
  mkRow (city r) v (weather_condition r) (temperature_celsius r)
        (humidity_percent r) (wind_speed_kph r) (temperature_fahrenheit r).

Definition set_weather_condition (v : cell) (r : row) : row :=
  mkRow (city r) (date r) v (temperature_celsius r)
        (humidity_percent r) (wind_speed_kph r) (temperature_fahrenheit r).

(** [pd.isna] on an object cell. *)
Definition isna (c : cell) : bool :=
  match c with NaN => true | _ => false end.

(** ** clean_dates *)

Module Dates.

Definition is_digit (c : ascii) : bool :=
  (48 <=? nat_of_ascii c) && (nat_of_ascii c <=? 57).

Fixpoint all_digits (s : string) : bool :=
  match s with
  | EmptyString => true
  | String c r => is_digit c && all_digits r
  end.

(** Greedy [\d{_,hi}]: the longest prefix of at most [hi] digits, and the
    rest of the subject. *)
Fixpoint span_digits (hi : nat) (s : string) : string * string :=
  match hi, s with
  | S k, String c r =>
      if is_digit c
      then let '(g, t) := span_digits k r in (String c g, t)
      else (EmptyString, s)
  | _, _ => (EmptyString, s)
  end.

Definition newline : ascii := ascii_of_nat 10.

(** [$] without re.MULTILINE: the end of the subject, or just before a
    newline that ends the subject. *)
Definition at_end (s : string) : bool :=
  match s with
  | EmptyString => true
  | String c EmptyString => Ascii.eqb c newline
  | _ => false
  end.

(** [re.match(r'^(\d{1,2})SEP(\d{1,2})SEP(\d{4})$', s)], with the three
    groups of the match.  Each group is followed by a character that is
    not a digit (or by the end), so the greedy choice is the only one the
    backtracking matcher can succeed with. *)
Definition re_match (sep : ascii) (s : string) : option (string * string * string) :=
  let '(g1, s1) := span_digits 2 s in
  if String.length g1 =? 0 then None else
  match s1 with
  | String c1 s2 =>
      if Ascii.eqb c1 sep then
        let '(g2, s3) := span_digits 2 s2 in
        if String.length g2 =? 0 then None else
        match s3 with
        | String c2 s4 =>
            if Ascii.eqb c2 sep then
              let '(g3, s5) := span_digits 4 s4 in
              if (String.length g3 =? 4) && at_end s5
              then Some (g1, g2, g3) else None
            else None
        | EmptyString => None
        end
      else None
  | EmptyString => None
  end.

(** [str.zfill(w)] on a string of digits. *)
Fixpoint zeros (n : nat) : string :=
  match n with
  | O => EmptyString
  | S k => String "0" (zeros k)
  end.

Definition zfill (w : nat) (s : string) : string :=
  zeros (w - String.length s) +:+ s.

(** The formatter shared by the three patterns:
    [f"{m.group(3)}-{m.group(1).zfill(2)}-{m.group(2).zfill(2)}"]. *)
Definition formatter (m : string * string * string) : string :=
  let '(g1, g2, g3) := m in
  g3 +:+ "-" +:+ zfill 2 g1 +:+ "-" +:+ zfill 2 g2.

(** The ordered list of (pattern, formatter) pairs. *)
Definition patterns : list (ascii * (string * string * string → string)) :=
  [ ("/"%char, formatter); ("-"%char, formatter); ("."%char, formatter) ].

Fixpoint first_match (ps : list (ascii * (string * string * string → string)))
    (s : string) : option string :=
  match ps with
  | [] => None
  | (sep, fmt) :: ps' =>
      match re_match sep s with
      | Some m => Some (fmt m)
      | None => first_match ps' s
      end
  end.

Definition standardize_date (date_str : cell) : option string :=
  match date_str with
  | Str s => first_match patterns s
  | _ => None
  end.

(** *** Calendar *)

Record datetime : Type := mkDate { year : nat; month : nat; day : nat }.

Definition is_leap (y : nat) : bool :=
  (y mod 4 =? 0) && (negb (y mod 100 =? 0) || (y mod 400 =? 0)).

Definition days_in_month (y m : nat) : nat :=
  match m with
  | 1 | 3 | 5 | 7 | 8 | 10 | 12 => 31
  | 4 | 6 | 9 | 11 => 30
  | 2 => if is_leap y then 29 else 28
  | _ => 0
  end.

Definition valid_date (y m d : nat) : bool :=
  (1 <=? y) && (1 <=? m) && (m <=? 12) && (1 <=? d) && (d <=? days_in_month y m).

Definition digit_val (c : ascii) : nat := nat_of_ascii c - 48.

Fixpoint number_from (acc : nat) (s : string) : nat :=
  match s with
  | EmptyString => acc
  | String c r => number_from (10 * acc + digit_val c) r
  end.

(** The value of a string of decimal digits. *)
Definition number (s : string) : nat := number_from 0 s.

(** [pd.to_datetime(_, errors='coerce')] on one element.  It is library
    code; the strings it receives here are those built by [formatter],
    of the shape dddd-dd-dd, on which it is the ISO 8601 year-month-day
    parse: the result is NaT ([None]) unless the month is in 1..12 and the
    day exists in that month of that year.  The Timestamp range of the
    nanosecond resolution (years 1677 to 2262) is not modelled. *)
Definition to_datetime (s : string) : option datetime :=
  match s with
  | String y1 (String y2 (String y3 (String y4 (String "-"
      (String m1 (String m2 (String "-" (String d1 (String d2 EmptyString))))))))) =>
      let ys := String y1 (String y2 (String y3 (String y4 EmptyString))) in
      let ms := String m1 (String m2 EmptyString) in
      let ds := String d1 (String d2 EmptyString) in
      if all_digits ys && all_digits ms && all_digits ds
         && valid_date (number ys) (number ms) (number ds)
      then Some (mkDate (number ys) (number ms) (number ds))
      else None
  | _ => None
  end.

Definition digit_char (n : nat) : ascii := ascii_of_nat (48 + n mod 10).

Definition pad2 (n : nat) : string :=
  String (digit_char (n / 10)) (String (digit_char n) EmptyString).

Definition pad4 (n : nat) : string :=
  String (digit_char (n / 1000)) (String (digit_char (n / 100))
    (String (digit_char (n / 10)) (String (digit_char n) EmptyString))).

(** [.dt.strftime('%Y-%m-%d')] on one element. *)
Definition strftime (t : datetime) : string :=
  pad4 (year t) +:+ "-" +:+ pad2 (month t) +:+ "-" +:+ pad2 (day t).

(** [df.dropna(subset=[c])] for the working column [standardized_date],
    kept next to its row. *)
Definition dropna_snd {A B : Type} (df : list (A * option B)) : list (A * B) :=
  omap (λ p, match snd p with Some v => Some (fst p, v) | None => None end) df.

Definition clean_dates (df : list row) : list row :=
  (* df = df.dropna(subset=['date']) *)
  let df := filter (λ r, isna (date r) = false) df in
  (* df['standardized_date'] = df['date'].apply(standardize_date) *)
  let df := (λ r, (r, standardize_date (date r))) <$> df in
  (* df = df.dropna(subset=['standardized_date']) *)
  let df := dropna_snd df in
  (* pd.to_datetime(df['standardized_date'], errors='coerce') *)
  let df := (λ p, (fst p, to_datetime (snd p))) <$> df in
  (* df = df.dropna(subset=['standardized_date']) *)
  let df := dropna_snd df in
  (* df['standardized_date'].dt.strftime('%Y-%m-%d') *)
  let df := (λ p, (fst p, strftime (snd p))) <$> df in
  (* df['date'] = df['standardized_date']; the working column is dropped *)
  (λ p, set_date (Str (snd p)) (fst p)) <$> df.

End Dates.

(** ** clean_dates, the range of Timestamp left open *)

Module Timestamps.

Import Dates.

(** The month is in 1..12 and the day exists in that month of that
    year. *)
Definition valid_month_day (y m d : nat) : bool :=
  (1 <=? m) && (m <=? 12) && (1 <=? d) && (d <=? days_in_month y m).

(** [pd.to_datetime(_, errors='coerce')] on one element of the shape
    dddd-dd-dd, for a library whose Timestamp holds the dates
    [representable] accepts.  Which dates these are depends on the
    installed pandas: with the nanosecond resolution of pandas 2.x a date
    outside [nanosecond_range] gives NaT, later versions hold every year
    of four digits. *)
Definition to_datetime_within (representable : datetime → bool) (s : string)
    : option datetime :=
  match s with
  | String y1 (String y2 (String y3 (String y4 (String "-"
      (String m1 (String m2 (String "-" (String d1 (String d2 EmptyString))))))))) =>
      let ys := String y1 (String y2 (String y3 (String y4 EmptyString))) in
      let ms := String m1 (String m2 EmptyString) in
      let ds := String d1 (String d2 EmptyString) in
      if all_digits ys && all_digits ms && all_digits ds
         && valid_month_day (number ys) (number ms) (number ds)
         && representable (mkDate (number ys) (number ms) (number ds))
      then Some (mkDate (number ys) (number ms) (number ds))
      else None
  | _ => None
  end.

(** The steps of clean_dates, with that library. *)
Definition clean_dates_within (representable : datetime → bool) (df : list row)
    : list row :=
  let df := filter (λ r, isna (date r) = false) df in
  let df := (λ r, (r, standardize_date (date r))) <$> df in
  let df := dropna_snd df in
  let df := (λ p, (fst p, to_datetime_within representable (snd p))) <$> df in
  let df := dropna_snd df in
  let df := (λ p, (fst p, strftime (snd p))) <$> df in
  (λ p, set_date (Str (snd p)) (fst p)) <$> df.

(** The order of the dates. *)
Definition date_leb (a b : datetime) : bool :=
  (year a <? year b)
  || ((year a =? year b)
      && ((month a <? month b) || ((month a =? month b) && (day a <=? day b)))).

(** The days a Timestamp of nanosecond resolution holds: Timestamp.min is
    1677-09-21 00:12:43 and Timestamp.max is 2262-04-11 23:47:16. *)
Definition nanosecond_range (t : datetime) : bool :=
  date_leb (mkDate 1677 9 22) t && date_leb t (mkDate 2262 4 11).

(** The library of [Dates.to_datetime]: every year from 1 on. *)
Definition from_year_one (t : datetime) : bool := 1 <=? year t.

End Timestamps.

(** ** clean_weather_conditions *)

Module Conditions.

Definition is_upper (c : ascii) : bool :=
  (65 <=? nat_of_ascii c) && (nat_of_ascii c <=? 90).

Definition is_lower (c : ascii) : bool :=
  (97 <=? nat_of_ascii c) && (nat_of_ascii c <=? 122).

Definition to_lower (c : ascii) : ascii :=
  if is_upper c then ascii_of_nat (nat_of_ascii c + 32) else c.

Definition to_upper (c : ascii) : ascii :=
  if is_lower c then ascii_of_nat (nat_of_ascii c - 32) else c.

(** [str.lower()] *)
Fixpoint lower (s : string) : string :=
  match s with
  | EmptyString => EmptyString
  | String c r => String (to_lower c) (lower r)
  end.

(** [str.capitalize()]: the first character in upper case, the others in
    lower case. *)
Definition capitalize (s : string) : string :=
  match s with
  | EmptyString => EmptyString
  | String c r => String (to_upper c) (lower r)
  end.

(** The [.str] accessor applies a string method to the strings of the
    column and gives NaN everywhere else. *)
Definition str_method (f : string → string) (c : cell) : cell :=
  match c with
  | Str s => Str (f s)
  | _ => NaN
  end.

(** [.replace({'Null': np.nan, 'NULL': np.nan})] *)
Definition replace_null (c : cell) : cell :=
  match c with
  | Str s => if bool_decide (s = "Null") || bool_decide (s = "NULL") then NaN else c
  | _ => c
  end.

Definition clean_weather_conditions (df : list row) : list row :=
  (* df['weather_condition'].str.lower().str.capitalize() *)
  let df := (λ r, set_weather_condition
                    (str_method capitalize (str_method lower (weather_condition r))) r) <$> df in
  (* .replace({'Null': np.nan, 'NULL': np.nan}) *)
  let df := (λ r, set_weather_condition (replace_null (weather_condition r)) r) <$> df in
  (* df[~((df['weather_condition'] == 'Unknown') | df['weather_condition'].isna())] *)
  filter (λ r, negb (bool_decide (weather_condition r = Str "Unknown")
                     || isna (weather_condition r)) = true) df.

End Conditions.

(** ** Numeric columns *)

Inductive column : Type :=
  | TemperatureCelsius
  | HumidityPercent
  | WindSpeedKph
  | TemperatureFahrenheit.

#[global] Instance column_eq_dec : EqDecision column.
Proof. solve_decision. Defined.

(** [df[c]] on one row. *)
Definition col (c : column) (r : row) : option Qc :=
  match c with
  | TemperatureCelsius => temperature_celsius r
  | HumidityPercent => humidity_percent r
  | WindSpeedKph => wind_speed_kph r
  | TemperatureFahrenheit => temperature_fahrenheit r
  end.

(** [df.loc[i, c] = v] on one row. *)
Definition set_col (c : column) (v : option Qc) (r : row) : row :=
  match c with
  | TemperatureCelsius =>
      mkRow (city r) (date r) (weather_condition r) v
            (humidity_percent r) (wind_speed_kph r) (temperature_fahrenheit r)
  | HumidityPercent =>
      mkRow (city r) (date r) (weather_condition r) (temperature_celsius r)
            v (wind_speed_kph r) (temperature_fahrenheit r)
  | WindSpeedKph =>
      mkRow (city r) (date r) (weather_condition r) (temperature_celsius r)
            (humidity_percent r) v (temperature_fahrenheit r)
  | TemperatureFahrenheit =>
      mkRow (city r) (date r) (weather_condition r) (temperature_celsius r)
            (humidity_percent r) (wind_speed_kph r) v
  end.

Definition Qc_of_nat (n : nat) : Qc := Qc_of_Z (Z.of_nat n).

Definition sum (l : list Qc) : Qc := foldr Qcplus 0%Qc l.

(** The mean of the values that are present; NaN when there is none. *)
Definition mean (l : list Qc) : option Qc :=
  match l with
  | [] => None
  | _ => Some (sum l / Qc_of_nat (length l))%Qc
  end.

(** The values of a column that are not missing. *)
Definition present (c : column) (df : list row) : list Qc :=
  omap (col c) df.

(** [df[c].mean()] *)
Definition col_mean (c : column) (df : list row) : option Qc :=
  mean (present c df).

(** A Series indexed by city. *)
Abbreviation series := (list (string * option Qc)).

(** [df['city'].unique()]: the cities in the order of their first row. *)
Fixpoint unique (l : list string) : list string :=
  match l with
  | [] => []
  | x :: l' => x :: filter (λ y, y ≠ x) (unique l')
  end.

(** Insertion into a list sorted by [le]; with [foldr] it gives a stable
    sort. *)
Fixpoint insert_sorted {A : Type} (le : A → A → bool) (x : A) (l : list A) : list A :=
  match l with
  | [] => [x]
  | y :: l' => if le x y then x :: l else y :: insert_sorted le x l'
  end.

Definition sort_by {A : Type} (le : A → A → bool) (l : list A) : list A :=
  foldr (insert_sorted le) [] l.

(** [df.groupby('city')[c].mean()]: one entry per city, the keys in
    increasing order, the value being the mean of the present values of
    the rows of that city. *)
Definition groupby_mean (c : column) (df : list row) : series :=
  (λ k, (k, col_mean c (filter (λ r, city r = k) df)))
    <$> sort_by String.leb (unique (city <$> df)).

(** [Series.get(key)]: Python's None when the key is absent. *)
Fixpoint get (s : series) (k : string) : option (option Qc) :=
  match s with
  | [] => None
  | (k', v) :: s' => if bool_decide (k' = k) then Some v else get s' k
  end.

(** ** handle_missing_values *)

Module Imputation.

(** The truth value of what [get] returns: None is false, a float is
    false exactly when it is zero, so NaN is true. *)
Definition truthy (v : option (option Qc)) : bool :=
  match v with
  | None => false
  | Some None => true
  | Some (Some q) => negb (bool_decide (q = 0%Qc))
  end.

(** [pd.isna] of what [get] returns. *)
Definition isna_value (v : option (option Qc)) : bool :=
  match v with
  | Some (Some _) => false
  | _ => true
  end.

(** The float assigned by [df.loc[mask, c] = city_avg.get(city)]. *)
Definition as_float (v : option (option Qc)) : option Qc :=
  match v with
  | Some x => x
  | None => None
  end.

(** One iteration of [for city in df['city'].unique()]. *)
Definition fill_city (c : column) (city_avg : series) (df : list row) (k : string)
    : list row :=
  if truthy (get city_avg k) && negb (isna_value (get city_avg k)) then
    (* city_mask = (df['city'] == city) & df[c].isna() *)
    (λ r, if bool_decide (city r = k) && bool_decide (col c r = None)
          then set_col c (as_float (get city_avg k)) r else r) <$> df
  else df.

(** [df[c] = df[c].fillna(v)]; filling with NaN changes nothing. *)
Definition fillna (c : column) (v : option Qc) (df : list row) : list row :=
  (λ r, match col c r with
        | None => set_col c v r
        | Some _ => r
        end) <$> df.

(** The city-level step for one column: lines 97 to 103 for the
    temperature, 111 to 116 for the two other columns. *)
Definition fill_cities (c : column) (df : list row) : list row :=
  let city_avg := groupby_mean c df in
  foldl (fill_city c city_avg) df (unique (city <$> df)).

(** The whole treatment of one column: city-level step, then the global
    average of the column as it is after that step. *)
Definition impute (c : column) (df : list row) : list row :=
  let df := fill_cities c df in
  let global_avg := col_mean c df in
  fillna c global_avg df.

Definition handle_missing_values (df : list row) : list row :=
  let df := impute TemperatureCelsius df in
  foldl (λ df c, impute c df) df [HumidityPercent; WindSpeedKph].

End Imputation.

(** ** add_fahrenheit_column and round_numeric_columns *)

Module Derived.

Definition fahrenheit (celsius : Qc) : Qc :=
  (celsius * Qc_of_Z 9 / Qc_of_Z 5 + Qc_of_Z 32)%Qc.

Definition add_fahrenheit_column (df : list row) : list row :=
  (λ r, set_col TemperatureFahrenheit (fahrenheit <$> temperature_celsius r) r) <$> df.

(** Rounding to the nearest integer, halves to the even one. *)
Definition rint (q : Qc) : Z :=
  let n := Qfloor q in
  match (q - Qc_of_Z n ?= Q2Qc (1 # 2))%Qc with
  | Lt => n
  | Gt => (n + 1)%Z
  | Eq => if Z.even n then n else (n + 1)%Z
  end.

(** [Series.round(2)] on one value. *)
Definition round2 (q : Qc) : Qc :=
  (Qc_of_Z (rint (q * Qc_of_Z 100)) / Qc_of_Z 100)%Qc.

Definition round_column (c : column) (df : list row) : list row :=
  (λ r, set_col c (round2 <$> col c r) r) <$> df.

Definition round_numeric_columns (df : list row) : list row :=
  foldl (λ df c, round_column c df) df
    [TemperatureCelsius; TemperatureFahrenheit; HumidityPercent; WindSpeedKph].

End Derived.

(** ** generate_city_temperature_report *)

Module Report.

Definition Qc_leb (x y : Qc) : bool := bool_decide (x ≤ y)%Qc.

(** The order of two entries that hold a value. *)
Definition entry_leb (a b : string * Qc) : bool := Qc_leb (snd a) (snd b).

(** The entries of a Series that hold a value, and the keys of the
    others. *)
Definition non_nans (s : series) : list (string * Qc) :=
  omap (λ e, match snd e with Some v => Some (fst e, v) | None => None end) s.

Definition nans (s : series) : series :=
  filter (λ e, snd e = None) s.

(** [Series.sort_values(ascending=False)], as pandas computes it: the
    values that are present are reversed, sorted in increasing order and
    reversed again; the missing ones come last.  Equal values keep their
    order, as with the insertion sort numpy uses on short arrays. *)
Definition sort_values_desc (s : series) : series :=
  ((λ e, (fst e, Some (snd e))) <$> reverse (sort_by entry_leb (reverse (non_nans s))))
    ++ nans s.

(** The Series the function returns (the report file is not modelled). *)
Definition generate_city_temperature_report (df : list row) : series :=
  let city_avg_temp :=
    sort_values_desc
      ((λ e : string * option Qc, (fst e, Derived.round2 <$> snd e))
         <$> groupby_mean TemperatureCelsius df) in
  take 5 city_avg_temp.

End Report.

(** ** The cleaning steps of main *)

Definition pipeline (df : list row) : list row :=
  let df := Dates.clean_dates df in
  let df := Conditions.clean_weather_conditions df in
  let df := Imputation.handle_missing_values df in
  let df := Derived.add_fahrenheit_column df in
  Derived.round_numeric_columns df.

(** ** The specification's reading of the stages *)

Module DateSpec.

Import Dates.

Definition separators : list ascii := [ "/"%char; "-"%char; "."%char ].

(** [s] is in the language of [^(\d{1,2})SEP(\d{1,2})SEP(\d{4})$], with
    [g1], [g2] and [g3] the text of its three groups. *)
Definition date_pattern (sep : ascii) (s g1 g2 g3 : string) : Prop :=
  all_digits g1 = true ∧ 1 ≤ String.length g1 ≤ 2 ∧
  all_digits g2 = true ∧ 1 ≤ String.length g2 ≤ 2 ∧
  all_digits g3 = true ∧ String.length g3 = 4 ∧
  (s = g1 +:+ String sep (g2 +:+ String sep g3) ∨
   s = g1 +:+ String sep (g2 +:+ String sep (g3 +:+ String newline EmptyString))).

(** YYYY-MM-DD from the groups, the first group being the month and the
    second the day, both padded to two digits. *)
Definition canonical (g1 g2 g3 : string) : string :=
  g3 +:+ "-" +:+ zfill 2 g1 +:+ "-" +:+ zfill 2 g2.

(** The number a string of decimal digits writes: each digit counts for
    its power of ten. *)
Fixpoint decimal (s : string) : nat :=
  match s with
  | EmptyString => 0
  | String c r => (nat_of_ascii c - 48) * 10 ^ String.length r + decimal r
  end.

(** The years with a 29th of February. *)
Definition leap_year (y : nat) : Prop :=
  (4 | y) ∧ (¬ (100 | y) ∨ (400 | y)).

(** [n] is the number of days of month [m] of year [y]. *)
Definition month_length (y m n : nat) : Prop :=
  (m ∈ [1; 3; 5; 7; 8; 10; 12] ∧ n = 31) ∨
  (m ∈ [4; 6; 9; 11] ∧ n = 30) ∨
  (m = 2 ∧ leap_year y ∧ n = 29) ∨
  (m = 2 ∧ ¬ leap_year y ∧ n = 28).

(** Month [m] and day [d] name a day of year [y]. *)
Definition calendar_date (y m d : nat) : Prop :=
  ∃ n, month_length y m n ∧ 1 ≤ d ≤ n.

(** A group of one digit gets a zero in front. *)
Definition two_digits (g : string) : string :=
  match g with
  | String c EmptyString => String "0" g
  | _ => g
  end.

(** YYYY-MM-DD, written from the groups. *)
Definition year_month_day (g1 g2 g3 : string) : string :=
  g3 +:+ "-" +:+ two_digits g1 +:+ "-" +:+ two_digits g2.

(** The Record [r] is kept, and becomes [r'], when the library holds the
    dates [representable] accepts. *)
Definition normalizes (representable : datetime → bool) (r r' : row) : Prop :=
  ∃ s sep g1 g2 g3,
    date r = Str s ∧ sep ∈ separators ∧ date_pattern sep s g1 g2 g3 ∧
    calendar_date (decimal g3) (decimal g1) (decimal g2) ∧
    representable (mkDate (decimal g3) (decimal g1) (decimal g2)) = true ∧
    r' = set_date (Str (year_month_day g1 g2 g3)) r.

(** [df'] is [df] without the Records that are not kept, the others
    normalized and in their order. *)
Inductive cleaned (representable : datetime → bool) : list row → list row → Prop :=
  | cleaned_nil : cleaned representable [] []
  | cleaned_keep r r' df df' :
      normalizes representable r r' → cleaned representable df df' →
      cleaned representable (r :: df) (r' :: df')
  | cleaned_drop r df df' :
      (∀ r', ¬ normalizes representable r r') → cleaned representable df df' →
      cleaned representable (r :: df) df'.

(** The shape dddd-dd-dd. *)
Definition iso_shape (s : string) : Prop :=
  ∃ y m d, all_digits y = true ∧ String.length y = 4 ∧
           all_digits m = true ∧ String.length m = 2 ∧
           all_digits d = true ∧ String.length d = 2 ∧
           s = y +:+ "-" +:+ m +:+ "-" +:+ d.

End DateSpec.

Module ConditionSpec.

Import Conditions.


End ConditionSpec.

Module ImputationSpec.

(** The partition mean of a city: the mean of the values of the column
    that are present on the rows of that city. *)
Definition partition_mean (c : column) (df : list row) (k : string) : option Qc :=
  col_mean c (filter (λ r, city r = k) df).

(** The value a row has after a substitution of the partition means: its
    own value when it has one, else the partition mean of its city. *)
Definition city_substitute (c : column) (df : list row) (r : row) : option Qc :=
  match col c r with
  | Some v => Some v
  | None => partition_mean c df (city r)
  end.

(** The effect of one iteration of the loop over the cities on one row. *)
Definition fill_row (c : column) (city_avg : series) (r : row) (k : string) : row :=
  if Imputation.truthy (get city_avg k) && negb (Imputation.isna_value (get city_avg k))
  then if bool_decide (city r = k) && bool_decide (col c r = None)
       then set_col c (Imputation.as_float (get city_avg k)) r else r
  else r.

(** The value a row has when the loop over the cities is over: a
    partition mean that is zero is not substituted. *)
Definition city_step_value (c : column) (df : list row) (r : row) : option Qc :=
  match col c r with
  | Some v => Some v
  | None =>
      match partition_mean c df (city r) with
      | Some m => if bool_decide (m = 0%Qc) then None else Some m
      | None => None
      end
  end.

(** The global average the code fills the remaining entries with. *)
Definition global_fallback (c : column) (df : list row) : option Qc :=
  mean (omap (city_step_value c df) df).

(** The value of a row in the imputed column. *)
Definition imputed_value (c : column) (df : list row) (r : row) : option Qc :=
  match city_step_value c df r with
  | Some v => Some v
  | None => global_fallback c df
  end.

(** The three imputed fields. *)
Definition imputed_column (c : column) : Prop :=
  c = TemperatureCelsius ∨ c = HumidityPercent ∨ c = WindSpeedKph.

End ImputationSpec.

Module ReportSpec.

(** [a] may stand before [b] in a ranking by decreasing value in which
    the missing values come last. *)
Definition ranks_before (a b : option Qc) : Prop :=
  match a, b with
  | Some x, Some y => (y ≤ x)%Qc
  | _, None => True
  | None, Some _ => False
  end.

End ReportSpec.

(** ** Datasets used as examples *)

Module Examples.

Definition num (n : Z) : option Qc := Some (Qc_of_Z n).

(** [n / d] *)
Definition frac (n d : Z) : option Qc := Some (Qc_of_Z n / Qc_of_Z d)%Qc.

(** A row as it is read from the file. *)
Definition observation (c d w : string) (t h ws : option Qc) : row :=
  mkRow c (Str d) (Str w) t h ws None.

(** One observation, the temperature being 23.456. *)
Definition df_one : list row :=
  [ observation "A" "03/15/2023" "SUNNY" (frac 23456 1000) (num 50) (num 10) ].

(** City A has temperatures -10 and 10 and one missing temperature, so
    its partition mean is 0; city B has temperature 20. *)
Definition df_zero_mean : list row :=
  [ observation "A" "01/01/2023" "Sunny" (num (-10)) (num 50) (num 10);
    observation "A" "01/02/2023" "Sunny" (num 10) (num 50) (num 10);
    observation "A" "01/03/2023" "Sunny" None (num 50) (num 10);
    observation "B" "01/01/2023" "Rainy" (num 20) (num 50) (num 10) ].

(** City A has temperature 10 once and two missing temperatures, city B
    has temperature 20, city C has no temperature. *)
Definition df_weighted : list row :=
  [ observation "A" "01/01/2023" "Sunny" (num 10) (num 50) (num 10);
    observation "A" "01/02/2023" "Sunny" None (num 50) (num 10);
    observation "A" "01/03/2023" "Sunny" None (num 50) (num 10);
    observation "B" "01/01/2023" "Rainy" (num 20) (num 50) (num 10);
    observation "C" "01/01/2023" "Rainy" None (num 50) (num 10) ].

(** An observation of the first day of the year 1500. *)
Definition df_year_1500 : list row :=
  [ observation "A" "01/01/1500" "Sunny" (num 10) (num 50) (num 10) ].


(** No humidity anywhere. *)
Definition df_no_humidity : list row :=
  [ observation "A" "2023-01-01" "Sunny" (num 10) None (num 10);
    observation "B" "2023-01-02" "Rainy" None None None ].

(** Cities whose mean temperatures are A 30, B 25, C 28, D 10, E 5 and
    F 40. *)
Definition df_ranking : list row :=
  [ observation "A" "2023-01-01" "Sunny" (num 29) (num 50) (num 10);
    observation "B" "2023-01-01" "Sunny" (num 25) (num 50) (num 10);
    observation "C" "2023-01-01" "Sunny" (num 28) (num 50) (num 10);
    observation "D" "2023-01-01" "Sunny" (num 10) (num 50) (num 10);
    observation "E" "2023-01-01" "Sunny" (num 5) (num 50) (num 10);
    observation "F" "2023-01-01" "Sunny" (num 40) (num 50) (num 10);
    observation "A" "2023-01-02" "Sunny" (num 31) (num 50) (num 10) ].

(** City A has the temperatures 1.00, 1.00, 1.00 and 1.01 (mean 1.0025),
    city B the temperatures 1.00, 1.00 and 1.01 (mean 1.00333...). *)
Definition df_close_means : list row :=
  [ observation "A" "2023-01-01" "Sunny" (frac 100 100) (num 50) (num 10);
    observation "A" "2023-01-02" "Sunny" (frac 100 100) (num 50) (num 10);
    observation "A" "2023-01-03" "Sunny" (frac 100 100) (num 50) (num 10);
    observation "A" "2023-01-04" "Sunny" (frac 101 100) (num 50) (num 10);
    observation "B" "2023-01-01" "Sunny" (frac 100 100) (num 50) (num 10);
    observation "B" "2023-01-02" "Sunny" (frac 100 100) (num 50) (num 10);
    observation "B" "2023-01-03" "Sunny" (frac 101 100) (num 50) (num 10) ].

End Examples.

(** ** Notions used to state further properties of the stages *)

Module Properties.

(** The row without its date, and without its condition. *)
Definition erase_date (r : row) : row := set_date NaN r.

Definition erase_condition (r : row) : row := set_weather_condition NaN r.

(** The three steps clean_weather_conditions applies to a condition
    before it filters. *)
Definition normalize_condition (c : cell) : cell :=
  Conditions.replace_null
    (Conditions.str_method Conditions.capitalize
       (Conditions.str_method Conditions.lower c)).

(** The test of the filter of clean_weather_conditions. *)
Definition condition_kept (c : cell) : bool :=
  negb (bool_decide (c = Str "Unknown") || isna c).

(** [v] is a whole number of hundredths. *)
Definition two_decimals (v : Qc) : Prop :=
  ∃ n : Z, v = (Qc_of_Z n / Qc_of_Z 100)%Qc.

(** [a] and [b] differ by at most [eps]. *)
Definition within (eps a b : Qc) : Prop :=
  (a - b ≤ eps)%Qc ∧ (b - a ≤ eps)%Qc.

End Properties.

(** Closed equations between values that hold rationals are decided by
    evaluation. *)
Ltac by_evaluation := apply (bool_decide_unpack _); vm_compute; exact I.

(** ** Facts about clean_dates *)

Section DateFacts.

Import Dates DateSpec.

Lemma is_digit_val c : is_digit c = true → digit_val c < 10 ∧ digit_char (digit_val c) = c.
Proof.
  destruct c as [[] [] [] [] [] [] [] []]; vm_compute; try discriminate; intros _; split; (lia || reflexivity).
Qed.

Lemma span_digits_spec hi s g t :
  span_digits hi s = (g, t) →
  s = g +:+ t ∧ all_digits g = true ∧ String.length g ≤ hi ∧
  (String.length g < hi →
   match t with String c _ => is_digit c = false | EmptyString => True end).
Proof.
  revert s g t. induction hi as [|k IH]; intros s g t; simpl.
  - destruct s; intros [= <- <-]; simpl; repeat split; lia.
  - destruct s as [|c r].
    + intros [= <- <-]; simpl; repeat split; lia.
    + destruct (is_digit c) eqn:Hc.
      * destruct (span_digits k r) as [g' t'] eqn:E. intros [= <- <-].
        destruct (IH _ _ _ E) as (-> & Hd & Hl & Hn). simpl. rewrite Hc, Hd.
        repeat split; [lia|]. intros. apply Hn. lia.
      * intros [= <- <-]. simpl. repeat split; [lia|]. intros _. exact Hc.
Qed.

Lemma span_digits_app hi g t :
  all_digits g = true → String.length g ≤ hi →
  (String.length g = hi ∨
   match t with String c _ => is_digit c = false | EmptyString => True end) →
  span_digits hi (g +:+ t) = (g, t).
Proof.
  revert g. induction hi as [|k IH]; intros g Hd Hl Hn.
  - destruct g; [|simpl in Hl; lia]. simpl. by destruct t.
  - destruct g as [|c g]; simpl in *.
    + destruct Hn as [|Hn]; [lia|]. destruct t; simpl; [done|]. by rewrite Hn.
    + apply andb_true_iff in Hd as [Hc Hd]. rewrite Hc.
      rewrite IH; [done|done|lia|]. destruct Hn; [left; lia|by right].
Qed.

Lemma at_end_spec s :
  at_end s = true ↔ s = EmptyString ∨ s = String newline EmptyString.
Proof.
  destruct s as [|c [|c' s']]; simpl.
  - split; [by left|done].
  - rewrite Ascii.eqb_eq. split; [intros ->; by right|by intros [|[= ->]]].
  - split; [done|by intros [|]].
Qed.

Lemma string_app_cons c (a b : string) : String c a +:+ b = String c (a +:+ b).
Proof. reflexivity. Qed.

Lemma string_app_nil_l (a : string) : EmptyString +:+ a = a.
Proof. reflexivity. Qed.

Lemma string_app_nil_r (a : string) : a +:+ EmptyString = a.
Proof. induction a as [|x a IH]; [done|]. by rewrite string_app_cons, IH. Qed.

Lemma string_app_assoc (a b c : string) : (a +:+ b) +:+ c = a +:+ (b +:+ c).
Proof. induction a as [|x a IH]; [done|]. by rewrite !string_app_cons, IH. Qed.

Lemma string_app_length (a b : string) :
  String.length (a +:+ b) = String.length a + String.length b.
Proof. induction a as [|x a IH]; [done|]. rewrite string_app_cons. simpl. by rewrite IH. Qed.

(** The matcher computes the language of the pattern. *)
Lemma re_match_sound sep s g1 g2 g3 :
  re_match sep s = Some (g1, g2, g3) → date_pattern sep s g1 g2 g3.
Proof.
  unfold re_match, date_pattern.
  destruct (span_digits 2 s) as [a s1] eqn:E1.
  apply span_digits_spec in E1 as (-> & Hda & Hla & _).
  destruct (String.length a =? 0) eqn:Ha; [done|]. apply Nat.eqb_neq in Ha.
  destruct s1 as [|c1 s2]; [done|].
  destruct (Ascii.eqb c1 sep) eqn:Hc1; [|done]. apply Ascii.eqb_eq in Hc1 as ->.
  destruct (span_digits 2 s2) as [b s3] eqn:E2.
  apply span_digits_spec in E2 as (-> & Hdb & Hlb & _).
  destruct (String.length b =? 0) eqn:Hb; [done|]. apply Nat.eqb_neq in Hb.
  destruct s3 as [|c2 s4]; [done|].
  destruct (Ascii.eqb c2 sep) eqn:Hc2; [|done]. apply Ascii.eqb_eq in Hc2 as ->.
  destruct (span_digits 4 s4) as [y s5] eqn:E3.
  apply span_digits_spec in E3 as (-> & Hdy & Hly & _).
  destruct (String.length y =? 4) eqn:Hy; [|done]. apply Nat.eqb_eq in Hy.
  destruct (at_end s5) eqn:He; [|done]. apply at_end_spec in He.
  simpl. intros [= <- <- <-].
  repeat split; try done; try lia.
  destruct He as [-> | ->]; [left|by right]. by rewrite string_app_nil_r.
Qed.

Lemma is_digit_newline : is_digit newline = false.
Proof. reflexivity. Qed.

Lemma re_match_complete sep s g1 g2 g3 :
  is_digit sep = false →
  date_pattern sep s g1 g2 g3 → re_match sep s = Some (g1, g2, g3).
Proof.
  intros Hsep (Hd1 & Hl1 & Hd2 & Hl2 & Hd3 & Hl3 & Hs).
  assert (∃ t, at_end t = true ∧
               match t with String c _ => is_digit c = false | EmptyString => True end ∧
               s = g1 +:+ String sep (g2 +:+ String sep (g3 +:+ t)))
    as (t & Ht & Hnt & ->).
  { destruct Hs as [-> | ->].
    - exists EmptyString. repeat split. by rewrite string_app_nil_r.
    - exists (String newline EmptyString). repeat split. }
  unfold re_match.
  rewrite span_digits_app by (try done; try lia; by right).
  destruct (String.length g1 =? 0) eqn:E; [apply Nat.eqb_eq in E; lia|].
  rewrite Ascii.eqb_refl.
  rewrite span_digits_app by (try done; try lia; by right).
  destruct (String.length g2 =? 0) eqn:E2; [apply Nat.eqb_eq in E2; lia|].
  rewrite Ascii.eqb_refl.
  rewrite span_digits_app by (try done; try lia; by left).
  rewrite Hl3, Ht. reflexivity.
Qed.

Lemma digits_prefix_unique g g' c c' t t' :
  all_digits g = true → all_digits g' = true →
  is_digit c = false → is_digit c' = false →
  g +:+ String c t = g' +:+ String c' t' → g = g' ∧ c = c' ∧ t = t'.
Proof.
  revert g'. induction g as [|x g IH]; intros [|x' g'] Hg Hg' Hc Hc';
    rewrite ?string_app_cons, ?string_app_nil_l; simpl in *; intros [= ? H]; subst.
  - done.
  - apply andb_true_iff in Hg' as [? _]. congruence.
  - apply andb_true_iff in Hg as [? _]. congruence.
  - apply andb_true_iff in Hg as [_ Hg]. apply andb_true_iff in Hg' as [_ Hg'].
    destruct (IH g' Hg Hg' Hc Hc' H) as (-> & -> & ->). done.
Qed.

Lemma is_digit_separator sep : sep ∈ separators → is_digit sep = false.
Proof.
  unfold separators. rewrite !elem_of_cons, elem_of_nil.
  intros [-> | [-> | [-> | []]]]; reflexivity.
Qed.

(** A string matches at most one of the patterns, in one way. *)
Lemma date_pattern_unique sep sep' s g1 g2 g3 g1' g2' g3' :
  is_digit sep = false → is_digit sep' = false →
  date_pattern sep s g1 g2 g3 → date_pattern sep' s g1' g2' g3' →
  sep = sep' ∧ g1 = g1' ∧ g2 = g2' ∧ g3 = g3'.
Proof.
  intros Hsep Hsep' H H'.
  assert (sep = sep') as <-.
  { destruct H as (Hd1 & _ & _ & _ & _ & _ & Hs).
    destruct H' as (Hd1' & _ & _ & _ & _ & _ & Hs').
    destruct Hs as [-> | ->], Hs' as [Hs' | Hs'];
      by destruct (digits_prefix_unique _ _ _ _ _ _ Hd1 Hd1' Hsep Hsep' Hs') as (_ & ? & _). }
  apply re_match_complete in H; [|done]. apply re_match_complete in H'; [|done].
  rewrite H in H'. by injection H' as -> -> ->.
Qed.

Lemma first_match_spec s f :
  first_match patterns s = Some f ↔
  ∃ sep g1 g2 g3,
    sep ∈ separators ∧ date_pattern sep s g1 g2 g3 ∧ f = canonical g1 g2 g3.
Proof.
  unfold patterns, separators. split.
  - simpl.
    destruct (re_match "/" s) as [[[g1 g2] g3]|] eqn:E1.
    { intros [= <-]. exists "/"%char, g1, g2, g3.
      split; [rewrite !elem_of_cons; tauto|]. split; [by apply re_match_sound|done]. }
    destruct (re_match "-" s) as [[[g1 g2] g3]|] eqn:E2.
    { intros [= <-]. exists "-"%char, g1, g2, g3.
      split; [rewrite !elem_of_cons; tauto|]. split; [by apply re_match_sound|done]. }
    destruct (re_match "." s) as [[[g1 g2] g3]|] eqn:E3; [|done].
    intros [= <-]. exists "."%char, g1, g2, g3.
    split; [rewrite !elem_of_cons; tauto|]. split; [by apply re_match_sound|done].
  - intros (sep & g1 & g2 & g3 & Hsep & Hp & ->).
    assert (∀ sep', sep' ∈ separators → sep' ≠ sep → re_match sep' s = None) as Hother.
    { intros sep' Hsep' Hne.
      destruct (re_match sep' s) as [[[g1' g2'] g3']|] eqn:E; [|done].
      apply re_match_sound in E.
      destruct (date_pattern_unique _ _ _ _ _ _ _ _ _
                  (is_digit_separator _ Hsep') (is_digit_separator _ Hsep) E Hp)
        as (? & _). done. }
    pose proof (re_match_complete _ _ _ _ _ (is_digit_separator _ Hsep) Hp) as Hm.
    unfold separators in Hsep. rewrite !elem_of_cons, elem_of_nil in Hsep.
    simpl. destruct Hsep as [-> | [-> | [-> | []]]].
    + by rewrite Hm.
    + rewrite (Hother "/"%char) by first [done | unfold separators; rewrite !elem_of_cons; tauto]. by rewrite Hm.
    + rewrite (Hother "/"%char), (Hother "-"%char) by first [done | unfold separators; rewrite !elem_of_cons; tauto].
      by rewrite Hm.
Qed.

Lemma div10 q v : v < 10 → (10 * q + v) / 10 = q.
Proof. intros. symmetry. apply (Nat.div_unique _ 10 q v); lia. Qed.

Lemma mod10 q v : v < 10 → (10 * q + v) mod 10 = v.
Proof. intros. symmetry. apply (Nat.mod_unique _ 10 q v); lia. Qed.

Lemma digit_char_val c q :
  is_digit c = true → digit_char (10 * q + digit_val c) = c.
Proof.
  intros Hc. destruct (is_digit_val c Hc) as [Hlt Heq].
  unfold digit_char in *. rewrite mod10 by done.
  by rewrite Nat.mod_small in Heq.
Qed.

Lemma pad2_number a b :
  is_digit a = true → is_digit b = true →
  pad2 (number (String a (String b EmptyString))) = String a (String b EmptyString).
Proof.
  intros Ha Hb. unfold pad2, number. cbn [number_from].
  destruct (is_digit_val b Hb) as [Hvb _].
  rewrite div10 by done. by rewrite !digit_char_val.
Qed.

Lemma pad4_number a b c d :
  is_digit a = true → is_digit b = true → is_digit c = true → is_digit d = true →
  pad4 (number (String a (String b (String c (String d EmptyString)))))
  = String a (String b (String c (String d EmptyString))).
Proof.
  intros Ha Hb Hc Hd. unfold pad4, number. cbn [number_from].
  destruct (is_digit_val b Hb) as [Hvb _].
  destruct (is_digit_val c Hc) as [Hvc _].
  destruct (is_digit_val d Hd) as [Hvd _].
  change 1000 with (10 * (10 * 10)). change 100 with (10 * 10).
  rewrite <- !Nat.Div0.div_div. rewrite !div10 by done.
  by rewrite !digit_char_val.
Qed.

Lemma zfill2_number g :
  all_digits g = true → 1 ≤ String.length g ≤ 2 →
  ∃ a b, zfill 2 g = String a (String b EmptyString) ∧
         is_digit a = true ∧ is_digit b = true ∧
         number (String a (String b EmptyString)) = number g.
Proof.
  intros Hd Hl. destruct g as [|a [|b [|]]]; simpl in Hl; try lia.
  - exists "0"%char, a. simpl in Hd. apply andb_true_iff in Hd as [Ha _].
    repeat split; try done.
  - exists a, b. simpl in Hd. apply andb_true_iff in Hd as [Ha Hd].
    apply andb_true_iff in Hd as [Hb _]. repeat split; done.
Qed.

Lemma length4 (g : string) :
  String.length g = 4 →
  ∃ a b c d, g = String a (String b (String c (String d EmptyString))).
Proof.
  destruct g as [|a [|b [|c [|d [|]]]]]; simpl; try lia. intros _. by exists a, b, c, d.
Qed.

(** Validation and printing of the string the formatter builds. *)
Lemma to_datetime_canonical g1 g2 g3 :
  all_digits g1 = true → 1 ≤ String.length g1 ≤ 2 →
  all_digits g2 = true → 1 ≤ String.length g2 ≤ 2 →
  all_digits g3 = true → String.length g3 = 4 →
  strftime <$> to_datetime (canonical g1 g2 g3)
  = if valid_date (number g3) (number g1) (number g2)
    then Some (canonical g1 g2 g3) else None.
Proof.
  intros Hd1 Hl1 Hd2 Hl2 Hd3 Hl3. unfold canonical.
  destruct (zfill2_number g1 Hd1 Hl1) as (m1 & m2 & -> & Hm1 & Hm2 & <-).
  destruct (zfill2_number g2 Hd2 Hl2) as (d1 & d2 & -> & Hdd1 & Hdd2 & <-).
  destruct (length4 g3 Hl3) as (y1 & y2 & y3 & y4 & ->).
  rewrite !string_app_cons, !string_app_nil_l.
  unfold to_datetime. rewrite Hd3.
  replace (all_digits (String m1 (String m2 EmptyString))) with true
    by (simpl; by rewrite Hm1, Hm2).
  replace (all_digits (String d1 (String d2 EmptyString))) with true
    by (simpl; by rewrite Hdd1, Hdd2).
  cbn [andb].
  destruct (valid_date _ _ _); [|done].
  simpl in Hd3. repeat (apply andb_true_iff in Hd3 as [? Hd3]).
  cbn [fmap option_fmap option_map]. unfold strftime. cbn [year month day].
  rewrite pad4_number, !pad2_number by done.
  by rewrite !string_app_cons, !string_app_nil_l.
Qed.

Lemma canonical_iso_shape g1 g2 g3 :
  all_digits g1 = true → 1 ≤ String.length g1 ≤ 2 →
  all_digits g2 = true → 1 ≤ String.length g2 ≤ 2 →
  all_digits g3 = true → String.length g3 = 4 →
  iso_shape (canonical g1 g2 g3).
Proof.
  intros Hd1 Hl1 Hd2 Hl2 Hd3 Hl3.
  destruct (zfill2_number g1 Hd1 Hl1) as (m1 & m2 & Hz1 & Hm1 & Hm2 & _).
  destruct (zfill2_number g2 Hd2 Hl2) as (d1 & d2 & Hz2 & Hdd1 & Hdd2 & _).
  exists g3, (zfill 2 g1), (zfill 2 g2). rewrite Hz1, Hz2. simpl.
  rewrite Hm1, Hm2, Hdd1, Hdd2. unfold canonical. by rewrite Hz1, Hz2.
Qed.

(** What clean_dates does to one row. *)
Lemma clean_dates_cons r df :
  clean_dates (r :: df) =
  match strftime <$> (standardize_date (date r) ≫= to_datetime) with
  | Some s => set_date (Str s) r :: clean_dates df
  | None => clean_dates df
  end.
Proof.
  unfold clean_dates, dropna_snd. rewrite filter_cons.
  destruct (decide (isna (date r) = false)) as [Hna|Hna].
  - rewrite !fmap_cons. cbn [omap list_omap fst snd].
    destruct (standardize_date (date r)) as [s|]; [|done].
    rewrite !fmap_cons. cbn [omap list_omap fst snd mbind option_bind].
    destruct (to_datetime s) as [t|]; done.
  - destruct (date r); try done. 
Qed.

Lemma clean_dates_app df1 df2 :
  clean_dates (df1 ++ df2) = clean_dates df1 ++ clean_dates df2.
Proof.
  induction df1 as [|r df1 IH]; [done|].
  rewrite <- app_comm_cons, !clean_dates_cons, IH. by destruct (_ <$> _).
Qed.

(** The strings strftime prints match none of the patterns. *)
Lemma is_digit_digit_char n : is_digit (digit_char n) = true.
Proof.
  unfold digit_char. pose proof (Nat.mod_upper_bound n 10).
  destruct (n mod 10) as [|[|[|[|[|[|[|[|[|[|k]]]]]]]]]]; try reflexivity. lia.
Qed.

Lemma standardize_date_strftime t : standardize_date (Str (strftime t)) = None.
Proof.
  unfold standardize_date, strftime, pad4.
  rewrite !string_app_cons.
  set (rest := String (digit_char (year t)) _).
  assert (∀ sep, is_digit sep = false →
    re_match sep (String (digit_char (year t / 1000))
                    (String (digit_char (year t / 100))
                       (String (digit_char (year t / 10)) rest))) = None) as H.
  { intros sep Hsep. unfold re_match. cbn [span_digits].
    rewrite !is_digit_digit_char. cbn [String.length Nat.eqb].
    destruct (Ascii.eqb _ sep) eqn:E; [|done].
    apply Ascii.eqb_eq in E. rewrite <- E, is_digit_digit_char in Hsep. done. }
  unfold patterns. cbn [first_match]. by rewrite !H.
Qed.

Lemma clean_dates_canonical df :
  Forall (λ r, ∃ t, date r = Str (strftime t)) (clean_dates df).
Proof.
  induction df as [|r df IH]; [constructor|].
  rewrite clean_dates_cons.
  destruct (standardize_date (date r) ≫= to_datetime) as [t|]; [|done].
  constructor; [|done]. by exists t.
Qed.

Lemma clean_dates_of_canonical df :
  Forall (λ r, ∃ t, date r = Str (strftime t)) df → clean_dates df = [].
Proof.
  induction 1 as [|r df [t Ht] _ IH]; [done|].
  by rewrite clean_dates_cons, Ht, standardize_date_strftime.
Qed.

(** C4, as the code has it: the date string 03/15/2023 (month first)
    becomes 2023-03-15, wherever the Record stands in the dataset; a
    Record whose date string is 15/03/2023 is dropped, there being no
    month 15, and so is a Record whose date string is 31/02/2023. *)
Theorem clean_dates_march_15 df1 df2 r :
  clean_dates (df1 ++ set_date (Str "03/15/2023") r :: df2)
  = clean_dates df1 ++ set_date (Str "2023-03-15") r :: clean_dates df2
  ∧ clean_dates (df1 ++ set_date (Str "15/03/2023") r :: df2)
    = clean_dates df1 ++ clean_dates df2
  ∧ clean_dates (df1 ++ set_date (Str "31/02/2023") r :: df2)
    = clean_dates df1 ++ clean_dates df2.
Proof.
  rewrite !clean_dates_app, !clean_dates_cons. by destruct r.
Qed.

(** C4 fails as it is stated: a Record whose date string is 15/03/2023
    does not get the date 2023-03-15, it is dropped. *)
Lemma clean_dates_day_first_dropped :
  clean_dates [Examples.observation "A" "15/03/2023" "Sunny" None None None] = [].
Proof. reflexivity. Qed.

End DateFacts.

(** ** Facts about clean_weather_conditions *)

Section ConditionFacts.

Import Conditions ConditionSpec.






(** What clean_weather_conditions does to one row. *)
Lemma elem_of_clean_weather_conditions df r' :
  r' ∈ clean_weather_conditions df ↔
  ∃ r, r ∈ df ∧
       r' = set_weather_condition
              (replace_null (str_method capitalize (str_method lower (weather_condition r)))) r ∧
       weather_condition r' ≠ Str "Unknown" ∧ isna (weather_condition r') = false.
Proof.
  unfold clean_weather_conditions.
  rewrite list_elem_of_filter, <- list_fmap_compose, list_elem_of_fmap.
  rewrite negb_true_iff, orb_false_iff, bool_decide_eq_false.
  split.
  - intros [[Hu Hn] (r & -> & Hr)]. exists r. by destruct r.
  - intros (r & Hr & -> & Hu & Hn). split; [done|]. exists r. by destruct r.
Qed.




End ConditionFacts.

(** ** Facts about the columns and the grouping *)

Section ColumnFacts.

Lemma col_set_col c v r : col c (set_col c v r) = v.
Proof. by destruct c. Qed.

Lemma col_set_col_ne c c' v r : c ≠ c' → col c (set_col c' v r) = col c r.
Proof. by destruct c, c'. Qed.

Lemma set_col_col c r : set_col c (col c r) r = r.
Proof. by destruct c, r. Qed.

Lemma set_col_none c r : col c r = None → set_col c None r = r.
Proof. intros <-. apply set_col_col. Qed.

Lemma city_set_col c v r : city (set_col c v r) = city r.
Proof. by destruct c. Qed.

Lemma date_set_col c v r : date (set_col c v r) = date r.
Proof. by destruct c. Qed.


Lemma insert_sorted_perm {A} (le : A → A → bool) x l :
  insert_sorted le x l ≡ₚ x :: l.
Proof.
  induction l as [|y l IH]; simpl; [done|].
  destruct (le x y); [done|]. rewrite IH. apply Permutation_swap.
Qed.

Lemma sort_by_perm {A} (le : A → A → bool) l : sort_by le l ≡ₚ l.
Proof.
  induction l as [|x l IH]; simpl; [done|].
  rewrite insert_sorted_perm. by rewrite IH.
Qed.

Lemma elem_of_unique x l : x ∈ unique l ↔ x ∈ l.
Proof.
  induction l as [|y l IH]; simpl; [done|].
  rewrite !elem_of_cons, list_elem_of_filter, IH.
  destruct (decide (x = y)); tauto.
Qed.

Lemma NoDup_unique l : NoDup (unique l).
Proof.
  induction l as [|y l IH]; simpl; [constructor|].
  constructor; [|by apply NoDup_filter].
  rewrite list_elem_of_filter. tauto.
Qed.

Lemma get_fmap_key (f : string → option Qc) ks k :
  k ∈ ks → get ((λ k, (k, f k)) <$> ks) k = Some (f k).
Proof.
  induction ks as [|k' ks IH]; [by rewrite elem_of_nil|].
  rewrite elem_of_cons, fmap_cons. simpl.
  case_bool_decide as Hk; [by subst|]. intros [->|?]; [done|by apply IH].
Qed.

Lemma get_groupby_mean c df k :
  k ∈ city <$> df →
  get (groupby_mean c df) k = Some (ImputationSpec.partition_mean c df k).
Proof.
  intros Hk. unfold groupby_mean.
  apply (get_fmap_key (λ k, col_mean c (filter (λ r, city r = k) df))).
  by rewrite sort_by_perm, elem_of_unique.
Qed.

End ColumnFacts.

(** ** Facts about handle_missing_values *)

Section ImputationFacts.

Import Imputation ImputationSpec.

(** The loop over the cities works row by row. *)
Lemma fill_city_fmap c avg df k :
  fill_city c avg df k = (λ r, fill_row c avg r k) <$> df.
Proof.
  unfold fill_city, fill_row.
  destruct (truthy (get avg k) && negb (isna_value (get avg k))); [done|].
  by rewrite list_fmap_id.
Qed.

Lemma foldl_fill_city c avg ks df :
  foldl (fill_city c avg) df ks = (λ r, foldl (fill_row c avg) r ks) <$> df.
Proof.
  revert df. induction ks as [|k ks IH]; intros df; simpl.
  - by rewrite list_fmap_id.
  - rewrite IH, fill_city_fmap, <- list_fmap_compose. done.
Qed.

Lemma city_fill_row c avg r k : city (fill_row c avg r k) = city r.
Proof.
  unfold fill_row. repeat case_match; try done. apply city_set_col.
Qed.

Lemma fill_row_other c avg r k : city r ≠ k → fill_row c avg r k = r.
Proof.
  intros Hk. unfold fill_row.
  rewrite (bool_decide_eq_false_2 _ Hk). simpl. by case_match.
Qed.

Lemma fill_row_idemp c avg r k :
  fill_row c avg (fill_row c avg r k) k = fill_row c avg r k.
Proof.
  unfold fill_row.
  destruct (get avg k) as [[m|]|] eqn:Hg; simpl; try done.
  destruct (negb (bool_decide (m = 0%Qc))); simpl; [|done].
  destruct (bool_decide (city r = k) && bool_decide (col c r = None)) eqn:E; [|by rewrite E].
  rewrite col_set_col. rewrite (bool_decide_eq_false_2 (Some m = None)) by done.
  by rewrite andb_false_r.
Qed.

(** Only the iteration for the city of a row can change that row. *)
Lemma foldl_fill_row c avg ks r :
  foldl (fill_row c avg) r ks
  = if bool_decide (city r ∈ ks) then fill_row c avg r (city r) else r.
Proof.
  revert r. induction ks as [|k ks IH]; intros r; cbn [foldl].
  - rewrite bool_decide_eq_false_2; [done|]. apply not_elem_of_nil.
  - rewrite IH. destruct (decide (city r = k)) as [<-|Hk].
    + rewrite city_fill_row, fill_row_idemp.
      rewrite (bool_decide_eq_true_2 (city r ∈ city r :: ks)) by (by left).
      by case_bool_decide.
    + rewrite fill_row_other by done.
      rewrite (bool_decide_ext (city r ∈ k :: ks) (city r ∈ ks)); [done|].
      rewrite elem_of_cons. tauto.
Qed.

Lemma fill_row_own c df r :
  r ∈ df →
  fill_row c (groupby_mean c df) r (city r) = set_col c (city_step_value c df r) r.
Proof.
  intros Hr. unfold fill_row, city_step_value.
  rewrite get_groupby_mean by (by apply list_elem_of_fmap_2).
  rewrite bool_decide_eq_true_2 by done.
  destruct (col c r) as [v|] eqn:Hc.
  - rewrite (bool_decide_eq_false_2 (Some v = None)) by done.
    rewrite andb_false_r, <- Hc, set_col_col. by case_match.
  - rewrite (bool_decide_eq_true_2 (None = None)) by done.
    destruct (partition_mean c df (city r)) as [m|]; simpl.
    + case_bool_decide; simpl; [by rewrite set_col_none|done].
    + by rewrite set_col_none.
Qed.

(** The column after the city-level step. *)
Lemma fill_cities_rows c df :
  fill_cities c df = (λ r, set_col c (city_step_value c df r) r) <$> df.
Proof.
  unfold fill_cities. rewrite foldl_fill_city.
  apply list_fmap_ext. intros i r Hr%list_elem_of_lookup_2.
  rewrite foldl_fill_row, bool_decide_eq_true_2.
  - by apply fill_row_own.
  - rewrite elem_of_unique. by apply list_elem_of_fmap_2.
Qed.

Lemma omap_fmap_list {A B C} (f : A → B) (g : B → option C) (l : list A) :
  omap g (f <$> l) = omap (λ x, g (f x)) l.
Proof.
  induction l as [|x l IH]; [done|].
  rewrite fmap_cons. cbn [omap list_omap]. by rewrite IH.
Qed.

Lemma omap_ext_elem {A B} (f g : A → option B) (l : list A) :
  (∀ x, x ∈ l → f x = g x) → omap f l = omap g l.
Proof.
  induction l as [|x l IH]; intros H; [done|].
  cbn [omap list_omap]. rewrite (H x) by (by left).
  rewrite IH; [done|]. intros y Hy. apply H. by right.
Qed.

Lemma global_fallback_eq c df :
  col_mean c (fill_cities c df) = global_fallback c df.
Proof.
  unfold col_mean, present, global_fallback.
  rewrite fill_cities_rows, omap_fmap_list. f_equal.
  apply omap_ext_elem. intros r _. apply col_set_col.
Qed.

(** The imputation of one column, row by row. *)
Lemma impute_rows c df :
  impute c df = (λ r, set_col c (imputed_value c df r) r) <$> df.
Proof.
  unfold impute, fillna. rewrite global_fallback_eq, fill_cities_rows.
  rewrite <- list_fmap_compose. apply list_fmap_ext. intros _ r _.
  unfold compose, imputed_value. rewrite col_set_col.
  destruct (city_step_value c df r) as [v|]; [done|].
  destruct c, r; reflexivity.
Qed.

(** The imputation of a column looks at the cities and at that column
    only. *)
Lemma partition_mean_fmap c (g : row → row) df k :
  (∀ r, city (g r) = city r) → (∀ r, col c (g r) = col c r) →
  partition_mean c (g <$> df) k = partition_mean c df k.
Proof.
  intros Hcity Hcol. unfold partition_mean, col_mean, present. f_equal.
  induction df as [|r df IH]; [done|].
  rewrite fmap_cons, !filter_cons, Hcity.
  destruct (decide (city r = k)); [|done].
  cbn [omap list_omap]. by rewrite Hcol, IH.
Qed.

Lemma city_step_value_fmap c (g : row → row) df r :
  (∀ r, city (g r) = city r) → (∀ r, col c (g r) = col c r) →
  city_step_value c (g <$> df) (g r) = city_step_value c df r.
Proof.
  intros Hcity Hcol. unfold city_step_value.
  by rewrite Hcol, Hcity, partition_mean_fmap.
Qed.

Lemma imputed_value_fmap c (g : row → row) df r :
  (∀ r, city (g r) = city r) → (∀ r, col c (g r) = col c r) →
  imputed_value c (g <$> df) (g r) = imputed_value c df r.
Proof.
  intros Hcity Hcol. unfold imputed_value, global_fallback.
  rewrite city_step_value_fmap by done. rewrite omap_fmap_list.
  destruct (city_step_value c df r); [done|]. f_equal.
  apply omap_ext_elem. intros r' _. by apply city_step_value_fmap.
Qed.

Lemma impute_fmap c (g : row → row) df :
  (∀ r, city (g r) = city r) → (∀ r, col c (g r) = col c r) →
  impute c (g <$> df) = (λ r, set_col c (imputed_value c df r) (g r)) <$> df.
Proof.
  intros Hcity Hcol. rewrite impute_rows, <- list_fmap_compose.
  apply list_fmap_ext. intros _ r _. unfold compose.
  by rewrite imputed_value_fmap.
Qed.

(** handle_missing_values, row by row: each column is imputed from its
    own values in the input. *)
Lemma handle_missing_values_rows df :
  handle_missing_values df
  = (λ r, set_col WindSpeedKph (imputed_value WindSpeedKph df r)
            (set_col HumidityPercent (imputed_value HumidityPercent df r)
               (set_col TemperatureCelsius (imputed_value TemperatureCelsius df r) r)))
    <$> df.
Proof.
  unfold handle_missing_values. cbn [foldl].
  rewrite (impute_rows TemperatureCelsius).
  rewrite (impute_fmap HumidityPercent) by (intros; by destruct r).
  rewrite (impute_fmap WindSpeedKph) by (intros; by destruct r).
  done.
Qed.

Lemma col_handle_missing_values_row c (t h w : option Qc) r :
  col c (set_col WindSpeedKph w (set_col HumidityPercent h (set_col TemperatureCelsius t r)))
  = match c with
    | TemperatureCelsius => t
    | HumidityPercent => h
    | WindSpeedKph => w
    | TemperatureFahrenheit => temperature_fahrenheit r
    end.
Proof. by destruct c. Qed.

(** The value handle_missing_values leaves in an imputed column. *)
Lemma handle_missing_values_lookup df i r :
  df !! i = Some r →
  ∃ r', handle_missing_values df !! i = Some r' ∧
        city r' = city r ∧ date r' = date r ∧
        weather_condition r' = weather_condition r ∧
        temperature_fahrenheit r' = temperature_fahrenheit r ∧
        ∀ c, imputed_column c → col c r' = imputed_value c df r.
Proof.
  intros Hi. rewrite handle_missing_values_rows, list_lookup_fmap, Hi.
  eexists. split; [done|]. repeat split.
  intros c [-> | [-> | ->]]; by rewrite col_handle_missing_values_row.
Qed.

Lemma imputed_value_present c df r v : col c r = Some v → imputed_value c df r = Some v.
Proof. intros H. unfold imputed_value, city_step_value. by rewrite H. Qed.

Lemma present_all_missing c df :
  (∀ r, r ∈ df → col c r = None) → present c df = [].
Proof.
  induction df as [|r df IH]; intros H; [done|].
  unfold present in *. cbn [omap list_omap]. rewrite (H r) by (by left).
  apply IH. intros r' Hr'. apply H. by right.
Qed.

Lemma partition_mean_all_missing c df k :
  (∀ r, r ∈ df → col c r = None) → partition_mean c df k = None.
Proof.
  intros H. unfold partition_mean, col_mean.
  rewrite present_all_missing; [done|].
  intros r [_ Hr]%list_elem_of_filter. by apply H.
Qed.

Lemma omap_all_none {A B} (f : A → option B) l :
  (∀ x, x ∈ l → f x = None) → omap f l = [].
Proof.
  induction l as [|x l IH]; intros H; [done|].
  cbn [omap list_omap]. rewrite (H x) by (by left).
  apply IH. intros y Hy. apply H. by right.
Qed.

(** A partition mean that is not zero is substituted for the missing
    values of its city. *)
Lemma handle_missing_values_partition_mean df c i r m :
  imputed_column c → df !! i = Some r → col c r = None →
  partition_mean c df (city r) = Some m → m ≠ 0%Qc →
  col c <$> handle_missing_values df !! i = Some (Some m).
Proof.
  intros Hc Hi Hr Hm Hm0.
  destruct (handle_missing_values_lookup df i r Hi) as (r' & -> & _ & _ & _ & _ & Hcol).
  simpl. f_equal. rewrite (Hcol c Hc). unfold imputed_value, city_step_value.
  rewrite Hr, Hm. by rewrite bool_decide_eq_false_2.
Qed.

(** C2 fails on the code: in [Examples.df_zero_mean] the partition mean of
    city A is defined and equal to 0, and the missing temperature of city
    A is replaced by 20/3, the global average, not by 0. *)
Theorem handle_missing_values_zero_partition_mean :
  partition_mean TemperatureCelsius Examples.df_zero_mean "A" = Some (Qc_of_Z 0) ∧
  temperature_celsius <$> handle_missing_values Examples.df_zero_mean
  = [ Examples.num (-10); Examples.num 10; Examples.frac 20 3; Examples.num 20 ].
Proof. split; by_evaluation. Qed.

(** C3, as the code has it: the global mean that fills the entries still
    missing after the city-level step is the mean of the column as that
    step leaves it, that is of the values present at the start together
    with the partition mean of its city for each entry that was missing
    and has one.  Stated for the datasets in which no partition mean is
    zero. *)
Theorem handle_missing_values_global_mean df c i r :
  imputed_column c →
  (∀ k m, partition_mean c df k = Some m → m ≠ 0%Qc) →
  df !! i = Some r → col c r = None → partition_mean c df (city r) = None →
  col c <$> handle_missing_values df !! i
  = Some (mean (omap (city_substitute c df) df)).
Proof.
  intros Hc Hnz Hi Hr Hm.
  destruct (handle_missing_values_lookup df i r Hi) as (r' & -> & _ & _ & _ & _ & Hcol).
  simpl. f_equal. rewrite (Hcol c Hc). unfold imputed_value, city_step_value.
  rewrite Hr, Hm. unfold global_fallback. f_equal.
  apply omap_ext_elem. intros r0 _. unfold city_step_value, city_substitute.
  destruct (col c r0); [done|].
  destruct (partition_mean c df (city r0)) as [m|] eqn:E; [|done].
  rewrite bool_decide_eq_false_2; [done|]. by apply (Hnz (city r0)).
Qed.

(** C3 fails as it is stated: in [Examples.df_weighted] the mean of the
    temperatures present at the start is 15, and city C, which has no
    temperature, is filled with 25/2, the mean of 10, 10, 10 and 20. *)
Lemma handle_missing_values_global_mean_weighted :
  col_mean TemperatureCelsius Examples.df_weighted = Examples.num 15 ∧
  temperature_celsius <$> handle_missing_values Examples.df_weighted
  = [ Examples.num 10; Examples.num 10; Examples.num 10; Examples.num 20;
      Examples.frac 25 2 ].
Proof. split; by_evaluation. Qed.

Lemma handle_missing_values_global_mean_witness :
  temperature_celsius <$> handle_missing_values Examples.df_weighted !! 4
  = Some (mean (omap (city_substitute TemperatureCelsius Examples.df_weighted)
                  Examples.df_weighted)).
Proof.
  apply (handle_missing_values_global_mean Examples.df_weighted TemperatureCelsius 4
           (Examples.observation "C" "01/01/2023" "Rainy" None
              (Examples.num 50) (Examples.num 10))).
  - by left.
  - intros k m. unfold partition_mean, Examples.df_weighted.
    rewrite !filter_cons, filter_nil.
    repeat case_decide; simpl in *; try congruence; intros [= <-];
      apply (bool_decide_unpack _); vm_compute; exact I.
  - reflexivity.
  - reflexivity.
  - reflexivity.
Defined.

(** C7: when every value of one of the three numeric fields is missing,
    handle_missing_values leaves that field missing on every Record. *)
Theorem handle_missing_values_degenerate df c r' :
  imputed_column c →
  (∀ r, r ∈ df → col c r = None) →
  r' ∈ handle_missing_values df → col c r' = None.
Proof.
  intros Hc Hall (i & Hi)%list_elem_of_lookup_1.
  destruct (lookup_lt_is_Some_2 df i) as [r Hr].
  { apply lookup_lt_Some in Hi.
    by rewrite handle_missing_values_rows, length_fmap in Hi. }
  destruct (handle_missing_values_lookup df i r Hr) as (r2 & Hi2 & _ & _ & _ & _ & Hcol).
  rewrite Hi in Hi2. injection Hi2 as <-.
  rewrite (Hcol c Hc). unfold imputed_value, city_step_value, global_fallback.
  rewrite (Hall r) by (by eapply list_elem_of_lookup_2).
  rewrite partition_mean_all_missing by done.
  rewrite omap_all_none; [done|].
  intros r0 Hr0. unfold city_step_value.
  by rewrite (Hall r0 Hr0), partition_mean_all_missing.
Qed.

Lemma handle_missing_values_degenerate_witness :
  col HumidityPercent
    (Examples.observation "A" "2023-01-01" "Sunny" (Examples.num 10) None (Examples.num 10))
  = None.
Proof.
  apply (handle_missing_values_degenerate Examples.df_no_humidity HumidityPercent).
  - right. by left.
  - intros r Hr. unfold Examples.df_no_humidity in Hr.
    rewrite !elem_of_cons in Hr. destruct Hr as [-> | [-> | Hr]]; [reflexivity..|].
    by apply elem_of_nil in Hr.
  - apply (bool_decide_unpack _). vm_compute. exact I.
Defined.

(** C10: handle_missing_values keeps the number and the order of the
    Records, and on each Record the city, the date, the condition, the
    Fahrenheit column and every numeric value that is not missing. *)
Theorem handle_missing_values_frame df :
  length (handle_missing_values df) = length df ∧
  ∀ i r, df !! i = Some r →
    ∃ r', handle_missing_values df !! i = Some r' ∧
          city r' = city r ∧ date r' = date r ∧
          weather_condition r' = weather_condition r ∧
          temperature_fahrenheit r' = temperature_fahrenheit r ∧
          ∀ c v, col c r = Some v → col c r' = Some v.
Proof.
  split; [by rewrite handle_missing_values_rows, length_fmap|].
  intros i r Hi.
  destruct (handle_missing_values_lookup df i r Hi) as (r' & Hr' & ? & ? & ? & Hf & Hcol).
  exists r'. repeat split; try done.
  intros c v Hv. destruct c.
  - rewrite Hcol by (by left). by apply imputed_value_present.
  - rewrite Hcol by (right; by left). by apply imputed_value_present.
  - rewrite Hcol by (right; by right). by apply imputed_value_present.
  - simpl in *. congruence.
Qed.

Lemma handle_missing_values_frame_witness :
  ∃ r', handle_missing_values Examples.df_weighted !! 1 = Some r' ∧
        city r' = "A" ∧ date r' = Str "01/02/2023" ∧
        weather_condition r' = Str "Sunny" ∧
        temperature_fahrenheit r' = None ∧
        ∀ c v, col c (Examples.observation "A" "01/02/2023" "Sunny" None
                        (Examples.num 50) (Examples.num 10)) = Some v →
               col c r' = Some v.
Proof.
  apply (proj2 (handle_missing_values_frame Examples.df_weighted) 1
           (Examples.observation "A" "01/02/2023" "Sunny" None
              (Examples.num 50) (Examples.num 10))).
  reflexivity.
Defined.

End ImputationFacts.

(** ** Facts about add_fahrenheit_column and round_numeric_columns *)

Section DerivedFacts.

Import Derived.

(** C8: add_fahrenheit_column sets temperature_fahrenheit to
    temperature_celsius * 9 / 5 + 32 on every Record that has a
    temperature, so that 0 gives 32 and 100 gives 212, and leaves it
    missing on a Record whose temperature is missing; nothing else
    changes. *)
Theorem add_fahrenheit_column_formula df i r :
  df !! i = Some r →
  (∃ r', add_fahrenheit_column df !! i = Some r' ∧
         temperature_fahrenheit r'
         = match temperature_celsius r with
           | Some celsius => Some (celsius * Qc_of_Z 9 / Qc_of_Z 5 + Qc_of_Z 32)%Qc
           | None => None
           end ∧
         r' = set_col TemperatureFahrenheit (temperature_fahrenheit r') r) ∧
  fahrenheit (Qc_of_Z 0) = Qc_of_Z 32 ∧
  fahrenheit (Qc_of_Z 100) = Qc_of_Z 212.
Proof.
  intros Hi. split; [|split; by_evaluation].
  unfold add_fahrenheit_column. rewrite list_lookup_fmap, Hi.
  eexists. split; [reflexivity|]. simpl.
  split; [by destruct (temperature_celsius r)|done].
Qed.

Lemma add_fahrenheit_column_formula_witness :
  (∃ r', add_fahrenheit_column Examples.df_one !! 0 = Some r' ∧
         temperature_fahrenheit r'
         = match Examples.frac 23456 1000 with
           | Some celsius => Some (celsius * Qc_of_Z 9 / Qc_of_Z 5 + Qc_of_Z 32)%Qc
           | None => None
           end ∧
         r' = set_col TemperatureFahrenheit (temperature_fahrenheit r')
                (Examples.observation "A" "03/15/2023" "SUNNY" (Examples.frac 23456 1000)
                   (Examples.num 50) (Examples.num 10))) ∧
  fahrenheit (Qc_of_Z 0) = Qc_of_Z 32 ∧
  fahrenheit (Qc_of_Z 100) = Qc_of_Z 212.
Proof.
  apply (add_fahrenheit_column_formula Examples.df_one 0
           (Examples.observation "A" "03/15/2023" "SUNNY" (Examples.frac 23456 1000)
              (Examples.num 50) (Examples.num 10))).
  reflexivity.
Defined.

End DerivedFacts.

(** ** Facts about the sort *)

Section SortFacts.

Context {A : Type} (leb : A → A → bool).
Hypothesis leb_total : ∀ x y, leb x y = false → leb y x = true.
Hypothesis leb_trans : ∀ x y z, leb x y = true → leb y z = true → leb x z = true.

Lemma insert_sorted_sorted x l :
  StronglySorted (λ a b, leb a b = true) l →
  StronglySorted (λ a b, leb a b = true) (insert_sorted leb x l).
Proof.
  induction l as [|y l IH]; intros Hl; simpl.
  - repeat constructor.
  - apply StronglySorted_cons in Hl as [Hy Hl].
    destruct (leb x y) eqn:Hxy.
    + apply StronglySorted_cons. split; [|by apply StronglySorted_cons].
      constructor; [done|]. eapply Forall_impl; [exact Hy|].
      intros z Hz. by eapply leb_trans.
    + apply StronglySorted_cons. split; [|by apply IH].
      rewrite insert_sorted_perm. constructor; [by apply leb_total|done].
Qed.

Lemma sort_by_sorted l : StronglySorted (λ a b, leb a b = true) (sort_by leb l).
Proof.
  induction l as [|x l IH]; simpl; [constructor|by apply insert_sorted_sorted].
Qed.

End SortFacts.

Lemma StronglySorted_reverse {A} (R : relation A) l :
  StronglySorted R l → StronglySorted (flip R) (reverse l).
Proof.
  induction 1 as [|x l Hl IH Hx]; [constructor|].
  rewrite reverse_cons. apply StronglySorted_app. repeat split; [|done|repeat constructor].
  intros a b Ha Hb%list_elem_of_singleton. subst b.
  rewrite elem_of_reverse in Ha. rewrite Forall_forall in Hx. by apply Hx.
Qed.

Lemma StronglySorted_lookup {A} (R : relation A) l i j x y :
  StronglySorted R l → i < j → l !! i = Some x → l !! j = Some y → R x y.
Proof.
  intros Hl. revert i j. induction Hl as [|z l Hl IH Hz]; intros i j Hij Hi Hj.
  - done.
  - destruct j as [|j]; [lia|]. simpl in Hj. destruct i as [|i]; simpl in Hi.
    + injection Hi as ->. rewrite Forall_forall in Hz.
      by eapply Hz, list_elem_of_lookup_2.
    + apply (IH i j); [lia|done..].
Qed.

(** ** Facts about generate_city_temperature_report *)

Section ReportFacts.

Import Report ReportSpec ImputationSpec.

Lemma entry_leb_total (a b : string * Qc) : entry_leb a b = false → entry_leb b a = true.
Proof.
  unfold entry_leb, Qc_leb. rewrite bool_decide_eq_false, bool_decide_eq_true.
  intros H. by destruct (total Qcle (snd a) (snd b)).
Qed.

Lemma entry_leb_trans (a b c : string * Qc) :
  entry_leb a b = true → entry_leb b c = true → entry_leb a c = true.
Proof.
  unfold entry_leb, Qc_leb. rewrite !bool_decide_eq_true. apply Qcle_trans.
Qed.

Lemma sort_values_desc_perm (s : series) : sort_values_desc s ≡ₚ s.
Proof.
  unfold sort_values_desc.
  rewrite reverse_Permutation, sort_by_perm, reverse_Permutation.
  unfold non_nans, nans.
  induction s as [|[k [v|]] s IH]; [done| |].
  - cbn [omap list_omap fst snd]. rewrite fmap_cons, filter_cons_False by done.
    cbn [fst snd]. rewrite <- app_comm_cons. by rewrite IH.
  - cbn [omap list_omap fst snd]. rewrite filter_cons_True by done.
    rewrite <- Permutation_middle. by rewrite IH.
Qed.

Lemma sort_values_desc_sorted (s : series) :
  StronglySorted (λ e1 e2, ranks_before (snd e1) (snd e2)) (sort_values_desc s).
Proof.
  unfold sort_values_desc. apply StronglySorted_app. split; [|split].
  - intros a b _ Hb. unfold nans in Hb. apply list_elem_of_filter in Hb as [-> _].
    by destruct (snd a).
  - apply StronglySorted_fmap with (R1 := flip (λ a b, entry_leb a b = true)).
    + intros x y. unfold flip, entry_leb, Qc_leb. rewrite bool_decide_eq_true. done.
    + apply StronglySorted_reverse, sort_by_sorted.
      * apply entry_leb_total.
      * apply entry_leb_trans.
  - unfold nans. induction s as [|e s IH]; [constructor|].
    rewrite filter_cons. case_decide; [|done].
    constructor; [done|]. apply Forall_forall.
    intros b [-> _]%list_elem_of_filter. by destruct (snd e).
Qed.

(** The Series that is ranked: one entry per city, with the rounded mean
    of its temperatures. *)
Lemma rounded_means_eq df :
  (λ e : string * option Qc, (fst e, Derived.round2 <$> snd e))
    <$> groupby_mean TemperatureCelsius df
  = (λ k, (k, Derived.round2 <$> partition_mean TemperatureCelsius df k))
    <$> sort_by String.leb (unique (city <$> df)).
Proof. unfold groupby_mean. by rewrite <- list_fmap_compose. Qed.

Lemma ranked_perm df :
  sort_values_desc
    ((λ e : string * option Qc, (fst e, Derived.round2 <$> snd e))
       <$> groupby_mean TemperatureCelsius df)
  ≡ₚ (λ k, (k, Derived.round2 <$> partition_mean TemperatureCelsius df k))
       <$> unique (city <$> df).
Proof. by rewrite sort_values_desc_perm, rounded_means_eq, sort_by_perm. Qed.

Lemma length_unique (l : list string) : length (unique l) = length (remove_dups l).
Proof.
  apply Permutation_length, NoDup_Permutation.
  - apply NoDup_unique.
  - apply NoDup_remove_dups.
  - intros x. by rewrite elem_of_unique, elem_of_remove_dups.
Qed.

(** C9, as the code has it: the report takes the mean temperature of
    each city, rounds it to two decimals, ranks the cities by this rounded
    mean in decreasing order (a city without any temperature comes last)
    and returns the first five entries, or all of them when there are
    fewer than five cities; the cities left out rank no higher than the
    cities returned.  For the means A 30, B 25, C 28, D 10, E 5 and F 40
    the result is F 40, A 30, C 28, B 25, D 10. *)
Theorem generate_city_temperature_report_ranking df :
  length (generate_city_temperature_report df)
  = min 5 (length (remove_dups (city <$> df))) ∧
  NoDup (fst <$> generate_city_temperature_report df) ∧
  (∀ k v, (k, v) ∈ generate_city_temperature_report df →
          k ∈ city <$> df ∧
          v = Derived.round2 <$> partition_mean TemperatureCelsius df k) ∧
  (∀ i j e1 e2, i < j →
     generate_city_temperature_report df !! i = Some e1 →
     generate_city_temperature_report df !! j = Some e2 →
     ranks_before (snd e1) (snd e2)) ∧
  (∀ k e, k ∈ city <$> df → k ∉ fst <$> generate_city_temperature_report df →
          e ∈ generate_city_temperature_report df →
          ranks_before (snd e) (Derived.round2 <$> partition_mean TemperatureCelsius df k)) ∧
  generate_city_temperature_report Examples.df_ranking
  = [ ("F", Examples.num 40); ("A", Examples.num 30); ("C", Examples.num 28);
      ("B", Examples.num 25); ("D", Examples.num 10) ].
Proof.
  unfold generate_city_temperature_report at 1 2 3 4 5 6 7.
  pose proof (ranked_perm df) as Hperm.
  pose proof (sort_values_desc_sorted
    ((λ e : string * option Qc, (fst e, Derived.round2 <$> snd e))
       <$> groupby_mean TemperatureCelsius df)) as Hsorted.
  set (ranked := sort_values_desc _) in *.
  set (F := λ k, (k, Derived.round2 <$> partition_mean TemperatureCelsius df k)) in *.
  assert (∀ e, e ∈ ranked ↔ ∃ k, k ∈ city <$> df ∧ e = F k) as Helem.
  { intros e. rewrite Hperm, list_elem_of_fmap.
    split; intros (k & Hk1 & Hk2); exists k.
    - by rewrite <- elem_of_unique.
    - by rewrite elem_of_unique. }
  assert (NoDup (fst <$> ranked)) as Hnodup.
  { rewrite Hperm, <- list_fmap_compose.
    rewrite (list_fmap_ext (fst ∘ F) id _ (λ _ _ _, eq_refl)), list_fmap_id.
    apply NoDup_unique. }
  rewrite <- (take_drop 5 ranked) in Hsorted.
  split; [|split; [|split; [|split; [|split]]]].
  - by rewrite length_take, Hperm, length_fmap, length_unique.
  - rewrite fmap_take. eapply sublist_NoDup; [done|apply sublist_take].
  - intros k v (i & Hi & _)%elem_of_take.
    apply list_elem_of_lookup_2, Helem in Hi as (k' & Hk' & [= -> ->]). done.
  - intros i j e1 e2 Hij H1 H2.
    by apply (StronglySorted_lookup _ _ i j e1 e2 (StronglySorted_app_1_l _ _ _ Hsorted)).
  - intros k e Hk Hnot He.
    assert (F k ∈ take 5 ranked ++ drop 5 ranked) as [Hin|Hin]%elem_of_app.
    { rewrite take_drop. apply Helem. by exists k. }
    + destruct Hnot. apply list_elem_of_fmap. by exists (F k).
    + apply (StronglySorted_app_1_elem_of _ _ _ e (F k) Hsorted He Hin).
  - by_evaluation.
Qed.

(** C9 fails as it is stated: in [Examples.df_close_means] the mean of
    city A is 1.0025 and the mean of city B, 1.00333..., is higher; the
    report gives 1 for both, the means rounded to two decimals, and lists
    A before B. *)
Lemma generate_city_temperature_report_rounds_first :
  partition_mean TemperatureCelsius Examples.df_close_means "A" = Examples.frac 401 400 ∧
  partition_mean TemperatureCelsius Examples.df_close_means "B" = Examples.frac 301 300 ∧
  (Qc_of_Z 401 / Qc_of_Z 400 < Qc_of_Z 301 / Qc_of_Z 300)%Qc ∧
  generate_city_temperature_report Examples.df_close_means
  = [ ("A", Examples.num 1); ("B", Examples.num 1) ].
Proof. repeat split; by_evaluation. Qed.

End ReportFacts.

(** ** Facts about the whole pipeline *)

Section PipelineFacts.

Import Dates Conditions Imputation Derived.

(** The stages after clean_dates take the date of each of their rows
    from a row of their input. *)
Lemma date_clean_weather_conditions df r' :
  r' ∈ clean_weather_conditions df → ∃ r, r ∈ df ∧ date r' = date r.
Proof.
  intros (r & Hr & -> & _)%elem_of_clean_weather_conditions. by exists r.
Qed.

Lemma date_handle_missing_values df r' :
  r' ∈ handle_missing_values df → ∃ r, r ∈ df ∧ date r' = date r.
Proof.
  rewrite handle_missing_values_rows.
  intros (r & -> & Hr)%list_elem_of_fmap. exists r. split; [done|].
  by rewrite !date_set_col.
Qed.

Lemma date_add_fahrenheit_column df r' :
  r' ∈ add_fahrenheit_column df → ∃ r, r ∈ df ∧ date r' = date r.
Proof.
  intros (r & -> & Hr)%list_elem_of_fmap. exists r. split; [done|].
  by rewrite date_set_col.
Qed.

Lemma date_round_column c df r' :
  r' ∈ round_column c df → ∃ r, r ∈ df ∧ date r' = date r.
Proof.
  intros (r & -> & Hr)%list_elem_of_fmap. exists r. split; [done|].
  by rewrite date_set_col.
Qed.

Lemma date_round_numeric_columns df r' :
  r' ∈ round_numeric_columns df → ∃ r, r ∈ df ∧ date r' = date r.
Proof.
  unfold round_numeric_columns. cbn [foldl].
  intros (r1 & H1 & E1)%date_round_column.
  apply date_round_column in H1 as (r2 & H2 & E2).
  apply date_round_column in H2 as (r3 & H3 & E3).
  apply date_round_column in H3 as (r4 & H4 & E4).
  exists r4. split; [done|]. congruence.
Qed.

Lemma pipeline_canonical df :
  Forall (λ r, ∃ t, date r = Str (strftime t)) (pipeline df).
Proof.
  apply Forall_forall. intros r5 H5. unfold pipeline in H5.
  apply date_round_numeric_columns in H5 as (r4 & H4 & E4).
  apply date_add_fahrenheit_column in H4 as (r3 & H3 & E3).
  apply date_handle_missing_values in H3 as (r2 & H2 & E2).
  apply date_clean_weather_conditions in H2 as (r1 & H1 & E1).
  pose proof (clean_dates_canonical df) as Hc. rewrite Forall_forall in Hc.
  destruct (Hc r1 H1) as [t Ht]. exists t. congruence.
Qed.

(** C1, as the code has it: the pipeline run on its own cleaned output
    drops every Record.  The dates of the cleaned output have the form
    YYYY-MM-DD, which none of the three patterns of clean_dates matches,
    so the second run returns the empty dataset. *)
Theorem pipeline_twice_drops_all df : pipeline (pipeline df) = [].
Proof.
  unfold pipeline at 1.
  by rewrite (clean_dates_of_canonical _ (pipeline_canonical df)).
Qed.

(** C1 fails as it is stated: the cleaned output of [Examples.df_one] has
    one Record, and the pipeline run on that output drops it. *)
Lemma pipeline_twice_not_noop :
  pipeline Examples.df_one
  = [ mkRow "A" (Str "2023-03-15") (Str "Sunny") (Examples.frac 2346 100)
        (Examples.num 50) (Examples.num 10) (Examples.frac 7422 100) ] ∧
  pipeline (pipeline Examples.df_one) = [].
Proof. split; by_evaluation. Qed.

End PipelineFacts.

(** ** Further facts about clean_dates *)

Section MoreDateFacts.

Import Dates DateSpec Properties.

Lemma elem_of_patterns sep fmt :
  (sep, fmt) ∈ patterns → sep ∈ separators ∧ fmt = formatter.
Proof.
  unfold patterns, separators. rewrite !elem_of_cons, !elem_of_nil.
  intros [[= -> ->] | [[= -> ->] | [[= -> ->] | []]]]; tauto.
Qed.

Lemma first_match_None ps s :
  first_match ps s = None ↔ ∀ sep fmt, (sep, fmt) ∈ ps → re_match sep s = None.
Proof.
  induction ps as [|[sep fmt] ps IH]; cbn [first_match].
  - split; [|done]. intros _ sep fmt []%elem_of_nil.
  - destruct (re_match sep s) as [m|] eqn:E.
    + split; [done|]. intros H. rewrite (H sep fmt) in E by (by left). done.
    + rewrite IH. split.
      * intros H sep' fmt' [[= -> ->] | Hin]%elem_of_cons; [done|by eapply H].
      * intros H sep' fmt' Hin. apply (H sep' fmt'). by right.
Qed.

Lemma first_match_Some ps s f :
  first_match ps s = Some f →
  ∃ sep fmt m, (sep, fmt) ∈ ps ∧ re_match sep s = Some m ∧ f = fmt m.
Proof.
  induction ps as [|[sep fmt] ps IH]; cbn [first_match]; [done|].
  destruct (re_match sep s) as [m|] eqn:E.
  - intros [= <-]. exists sep, fmt, m. split; [by left|done].
  - intros (sep' & fmt' & m' & Hin & Hm & ->)%IH.
    exists sep', fmt', m'. split; [by right|done].
Qed.

Lemma re_match_exclusive sep sep' s m m' :
  sep ∈ separators → sep' ∈ separators →
  re_match sep s = Some m → re_match sep' s = Some m' → sep = sep' ∧ m = m'.
Proof.
  intros Hsep Hsep' Hm Hm'.
  destruct m as [[g1 g2] g3], m' as [[g1' g2'] g3'].
  apply re_match_sound in Hm, Hm'.
  destruct (date_pattern_unique _ _ _ _ _ _ _ _ _
              (is_digit_separator _ Hsep) (is_digit_separator _ Hsep') Hm Hm')
    as (-> & -> & -> & ->). done.
Qed.

(** The three patterns exclude each other, so the order in which the
    list of patterns is tried does not matter. *)
Theorem first_match_order_irrelevant ps s :
  ps ≡ₚ patterns → first_match ps s = first_match patterns s.
Proof.
  intros Hperm.
  destruct (first_match patterns s) as [f|] eqn:E.
  - apply first_match_Some in E as (sep & fmt & m & Hin & Hm & ->).
    destruct (first_match ps s) as [f'|] eqn:E'.
    + apply first_match_Some in E' as (sep' & fmt' & m' & Hin' & Hm' & ->).
      rewrite Hperm in Hin'.
      apply elem_of_patterns in Hin as [Hsep ->], Hin' as [Hsep' ->].
      by destruct (re_match_exclusive _ _ _ _ _ Hsep Hsep' Hm Hm') as [_ ->].
    + rewrite first_match_None in E'. rewrite <- Hperm in Hin.
      rewrite (E' _ _ Hin) in Hm. done.
  - apply first_match_None. intros sep fmt Hin. rewrite Hperm in Hin.
    rewrite first_match_None in E. by eapply E.
Qed.

Lemma first_match_order_irrelevant_witness :
  first_match (reverse patterns) "03/15/2023" = first_match patterns "03/15/2023".
Proof.
  apply (first_match_order_irrelevant (reverse patterns) "03/15/2023").
  apply reverse_Permutation.
Defined.

(** A date whose two separators differ matches no pattern. *)
Theorem standardize_date_mixed_separators sep1 sep2 g1 g2 rest :
  sep1 ∈ separators → sep2 ∈ separators → sep1 ≠ sep2 →
  all_digits g1 = true → all_digits g2 = true →
  standardize_date (Str (g1 +:+ String sep1 (g2 +:+ String sep2 rest))) = None.
Proof.
  intros H1 H2 Hne Hg1 Hg2. unfold standardize_date.
  destruct (first_match patterns _) as [f|] eqn:E; [|done].
  apply first_match_spec in E as (sep & a & b & y & Hsep & Hp & _).
  destruct Hp as (Ha & _ & Hb & _ & _ & _ & Hs).
  pose proof (is_digit_separator _ H1). pose proof (is_digit_separator _ H2).
  pose proof (is_digit_separator _ Hsep).
  destruct Hs as [Hs|Hs];
    apply digits_prefix_unique in Hs as (_ & -> & Hs); try done;
    apply digits_prefix_unique in Hs as (_ & -> & _); done.
Qed.

Lemma standardize_date_mixed_separators_witness :
  standardize_date (Str ("01" +:+ String "/" ("02" +:+ String "-" "2023"))) = None.
Proof.
  apply (standardize_date_mixed_separators "/" "-" "01" "02" "2023").
  - unfold separators. rewrite !elem_of_cons. tauto.
  - unfold separators. rewrite !elem_of_cons. tauto.
  - discriminate.
  - reflexivity.
  - reflexivity.
Defined.

(** Whatever standardize_date returns has the shape dddd-dd-dd, ten
    characters: months and days of one digit are padded. *)
Theorem standardize_date_shape c s :
  standardize_date c = Some s → iso_shape s ∧ String.length s = 10.
Proof.
  destruct c as [|t|]; try done. unfold standardize_date.
  intros (sep & g1 & g2 & g3 & _ & Hp & ->)%first_match_spec.
  destruct Hp as (? & ? & ? & ? & ? & ? & _).
  assert (iso_shape (canonical g1 g2 g3)) as Hshape by (by apply canonical_iso_shape).
  split; [done|].
  destruct Hshape as (y & m & d & _ & Hy & _ & Hm & _ & Hd & ->).
  rewrite !string_app_length, Hy, Hm, Hd. reflexivity.
Qed.

Lemma standardize_date_shape_witness :
  iso_shape "2023-03-05" ∧ String.length "2023-03-05" = 10.
Proof.
  apply (standardize_date_shape (Str "3.5.2023")). reflexivity.
Defined.

(** A newline at the very end of a date string is tolerated: the string
    gets the date it has without the newline. *)
Theorem standardize_date_trailing_newline s f :
  standardize_date (Str s) = Some f →
  (∀ t, s ≠ t +:+ String newline EmptyString) →
  standardize_date (Str (s +:+ String newline EmptyString)) = Some f.
Proof.
  unfold standardize_date.
  intros (sep & g1 & g2 & g3 & Hsep & Hp & ->)%first_match_spec Hnl.
  apply first_match_spec. exists sep, g1, g2, g3. split; [done|]. split; [|done].
  destruct Hp as (? & ? & ? & ? & ? & ? & [-> | ->]).
  - repeat split; try done; try lia. right.
    by rewrite !string_app_assoc, !string_app_cons, !string_app_assoc.
  - destruct (Hnl (g1 +:+ String sep (g2 +:+ String sep g3))).
    by rewrite !string_app_assoc, !string_app_cons, !string_app_assoc.
Qed.

Lemma standardize_date_trailing_newline_witness :
  standardize_date (Str ("03/15/2023" +:+ String newline EmptyString)) = Some "2023-03-15".
Proof.
  apply (standardize_date_trailing_newline "03/15/2023" "2023-03-15").
  - reflexivity.
  - intros t H.
    do 10 (destruct t as [|? t]; [discriminate H|]; injection H as _ H).
    destruct t; discriminate H.
Defined.

Lemma erase_date_set_date v r : erase_date (set_date v r) = erase_date r.
Proof. by destruct r. Qed.

(** clean_dates only drops Records and rewrites dates: without their
    dates, its rows are rows of the input, in the same order. *)
Theorem clean_dates_sublist df :
  erase_date <$> clean_dates df `sublist_of` erase_date <$> df.
Proof.
  induction df as [|r df IH]; [done|].
  rewrite clean_dates_cons, fmap_cons.
  destruct (strftime <$> _) as [s|].
  - rewrite fmap_cons, erase_date_set_date. by apply sublist_skip.
  - by apply sublist_cons.
Qed.

End MoreDateFacts.

(** ** Further facts about clean_weather_conditions *)

Section MoreConditionFacts.

Import Conditions ConditionSpec Properties.

Lemma clean_weather_conditions_cons r df :
  clean_weather_conditions (r :: df)
  = (if condition_kept (normalize_condition (weather_condition r))
     then [set_weather_condition (normalize_condition (weather_condition r)) r]
     else [])
    ++ clean_weather_conditions df.
Proof.
  unfold clean_weather_conditions. rewrite !fmap_cons, filter_cons.
  unfold condition_kept, normalize_condition.
  destruct r as [c d w t h ws f]. cbn [weather_condition set_weather_condition].
  by case_decide as H; destruct (negb _).
Qed.

Lemma clean_weather_conditions_app df1 df2 :
  clean_weather_conditions (df1 ++ df2)
  = clean_weather_conditions df1 ++ clean_weather_conditions df2.
Proof.
  induction df1 as [|r df1 IH]; [done|].
  by rewrite <- app_comm_cons, !clean_weather_conditions_cons, IH, app_assoc.
Qed.







(** The words unknown and null are recognised in any mix of upper and
    lower case, and the Record is dropped. *)
Theorem clean_weather_conditions_drops_any_case df1 df2 r s :
  weather_condition r = Str s →
  lower s = "unknown" ∨ lower s = "null" →
  clean_weather_conditions (df1 ++ r :: df2)
  = clean_weather_conditions df1 ++ clean_weather_conditions df2.
Proof.
  intros Hw Hs.
  rewrite clean_weather_conditions_app, clean_weather_conditions_cons, Hw.
  unfold normalize_condition. cbn [str_method].
  by destruct Hs as [-> | ->].
Qed.

Lemma clean_weather_conditions_drops_any_case_witness :
  clean_weather_conditions
    ([] ++ Examples.observation "A" "01/01/2023" "uNkNoWn" None None None :: [])
  = clean_weather_conditions [] ++ clean_weather_conditions [].
Proof.
  apply (clean_weather_conditions_drops_any_case [] []
           (Examples.observation "A" "01/01/2023" "uNkNoWn" None None None) "uNkNoWn").
  - reflexivity.
  - left. reflexivity.
Defined.

Lemma erase_condition_set v r :
  erase_condition (set_weather_condition v r) = erase_condition r.
Proof. by destruct r. Qed.

(** clean_weather_conditions only drops Records and rewrites conditions:
    without their conditions, its rows are rows of the input, in the same
    order. *)
Theorem clean_weather_conditions_sublist df :
  erase_condition <$> clean_weather_conditions df `sublist_of` erase_condition <$> df.
Proof.
  induction df as [|r df IH]; [done|].
  rewrite clean_weather_conditions_cons, fmap_cons.
  destruct (condition_kept _).
  - cbn [app]. rewrite fmap_cons, erase_condition_set. by apply sublist_skip.
  - by apply sublist_cons.
Qed.

End MoreConditionFacts.

(** ** Further facts about handle_missing_values *)

Section MoreImputationFacts.

Import Imputation ImputationSpec Properties.

Lemma handle_missing_values_partition_mean_witness :
  col TemperatureCelsius <$> handle_missing_values Examples.df_weighted !! 1
  = Some (Some (Qc_of_Z 10)).
Proof.
  apply (handle_missing_values_partition_mean Examples.df_weighted TemperatureCelsius 1
           (Examples.observation "A" "01/02/2023" "Sunny" None
              (Examples.num 50) (Examples.num 10))).
  - by left.
  - reflexivity.
  - reflexivity.
  - apply (bool_decide_unpack _). vm_compute. exact I.
  - apply (bool_decide_unpack _). vm_compute. exact I.
Defined.

Lemma elem_of_handle_missing_values df r' :
  r' ∈ handle_missing_values df →
  ∃ r, r ∈ df ∧ ∀ c, imputed_column c → col c r' = imputed_value c df r.
Proof.
  intros (i & Hi)%list_elem_of_lookup_1.
  destruct (lookup_lt_is_Some_2 df i) as [r Hr].
  { apply lookup_lt_Some in Hi.
    by rewrite handle_missing_values_rows, length_fmap in Hi. }
  destruct (handle_missing_values_lookup df i r Hr) as (r2 & Hi2 & _ & _ & _ & _ & Hcol).
  rewrite Hi in Hi2. injection Hi2 as <-.
  exists r. split; [by eapply list_elem_of_lookup_2|done].
Qed.

Lemma omap_not_nil {A B} (f : A → option B) l x y :
  x ∈ l → f x = Some y → omap f l ≠ [].
Proof.
  intros Hx Hf Hnil.
  assert (y ∈ omap f l) as Hy by (apply list_elem_of_omap; by exists x).
  rewrite Hnil in Hy. by apply elem_of_nil in Hy.
Qed.

Lemma mean_is_Some l : l ≠ [] → is_Some (mean l).
Proof. destruct l; [done|]. intros _. by eexists. Qed.

Lemma imputed_value_is_Some c df r r0 v0 :
  r0 ∈ df → col c r0 = Some v0 → is_Some (imputed_value c df r).
Proof.
  intros Hr0 Hv0. unfold imputed_value.
  destruct (city_step_value c df r) as [v|]; [by eexists|].
  apply mean_is_Some. apply (omap_not_nil _ _ r0 v0); [done|].
  unfold city_step_value. by rewrite Hv0.
Qed.

(** The guarantee of the imputation: a column that has a value on at
    least one Record has a value on every Record afterwards. *)
Theorem handle_missing_values_complete df c r0 v0 r' :
  imputed_column c → r0 ∈ df → col c r0 = Some v0 →
  r' ∈ handle_missing_values df → is_Some (col c r').
Proof.
  intros Hc Hr0 Hv0 (r & Hr & Hcol)%elem_of_handle_missing_values.
  rewrite (Hcol c Hc). by apply (imputed_value_is_Some c df r r0 v0).
Qed.

Lemma handle_missing_values_complete_witness :
  is_Some (col TemperatureCelsius
    (Examples.observation "C" "01/01/2023" "Rainy" (Examples.frac 25 2)
       (Examples.num 50) (Examples.num 10))).
Proof.
  apply (handle_missing_values_complete Examples.df_weighted TemperatureCelsius
           (Examples.observation "B" "01/01/2023" "Rainy" (Examples.num 20)
              (Examples.num 50) (Examples.num 10)) (Qc_of_Z 20)).
  - by left.
  - apply (bool_decide_unpack _). vm_compute. exact I.
  - reflexivity.
  - apply (bool_decide_unpack _). vm_compute. exact I.
Defined.

Lemma imputed_value_all_missing c df r :
  (∀ r0, r0 ∈ df → col c r0 = None) → col c r = None →
  imputed_value c df r = None.
Proof.
  intros Hall Hr. unfold imputed_value, city_step_value, global_fallback.
  rewrite Hr, partition_mean_all_missing by done.
  rewrite omap_all_none; [done|].
  intros r0 Hr0. unfold city_step_value.
  by rewrite (Hall r0 Hr0), partition_mean_all_missing.
Qed.

Lemma present_nil_all_missing c df :
  present c df = [] → ∀ r, r ∈ df → col c r = None.
Proof.
  intros Hnil r Hr. destruct (col c r) as [v|] eqn:Hv; [|done].
  by destruct (omap_not_nil (col c) df r v Hr Hv).
Qed.

(** After the imputation, the value of each row in an imputed column is
    the value the imputation would give it again. *)
Lemma imputed_value_fixed df c r' :
  imputed_column c → r' ∈ handle_missing_values df →
  imputed_value c (handle_missing_values df) r' = col c r'.
Proof.
  intros Hc Hr'. destruct (col c r') as [v|] eqn:Hv.
  { by apply imputed_value_present. }
  apply imputed_value_all_missing; [|done].
  assert (∀ r, r ∈ df → col c r = None) as Hall.
  { destruct (present c df) as [|v0 l] eqn:Hp; [by apply present_nil_all_missing|].
    assert (v0 ∈ present c df) as Hin by (rewrite Hp; by left).
    apply list_elem_of_omap in Hin as (r0 & Hr0 & Hv0).
    apply elem_of_handle_missing_values in Hr' as (r & _ & Hcol).
    destruct (imputed_value_is_Some c df r r0 v0 Hr0 Hv0) as [v Hv'].
    rewrite (Hcol c Hc) in Hv. congruence. }
  intros r1 (r & Hr & Hcol)%elem_of_handle_missing_values.
  rewrite (Hcol c Hc). apply imputed_value_all_missing; [done|by apply Hall].
Qed.

(** handle_missing_values is idempotent. *)
Theorem handle_missing_values_idempotent df :
  handle_missing_values (handle_missing_values df) = handle_missing_values df.
Proof.
  rewrite (handle_missing_values_rows (handle_missing_values df)).
  etrans; [|apply list_fmap_id].
  apply list_fmap_ext. intros i r' Hr'%list_elem_of_lookup_2.
  rewrite !imputed_value_fixed
    by first [done | by left | by (right; left) | by (right; right)].
  destruct r'; reflexivity.
Qed.

(** The imputation of a column reads the cities and that column only: a
    change of the other fields of the input does not change the column
    it produces. *)
Theorem handle_missing_values_column_independent (g : row → row) df c :
  imputed_column c →
  (∀ r, city (g r) = city r) → (∀ r, col c (g r) = col c r) →
  col c <$> handle_missing_values (g <$> df) = col c <$> handle_missing_values df.
Proof.
  intros Hc Hcity Hcol.
  rewrite !handle_missing_values_rows, <- !list_fmap_compose.
  apply list_fmap_ext. intros _ r _. unfold compose.
  rewrite !col_handle_missing_values_row.
  destruct Hc as [-> | [-> | ->]]; by apply imputed_value_fmap.
Qed.

Lemma handle_missing_values_column_independent_witness :
  col TemperatureCelsius
    <$> handle_missing_values (set_col HumidityPercent None <$> Examples.df_weighted)
  = col TemperatureCelsius <$> handle_missing_values Examples.df_weighted.
Proof.
  apply (handle_missing_values_column_independent (set_col HumidityPercent None)).
  - by left.
  - intros r. reflexivity.
  - intros r. reflexivity.
Defined.

(** A partition mean that is exactly zero is not substituted: the missing
    entries of such a city are filled like those of a city that has no
    value at all. *)
Theorem handle_missing_values_zero_mean_like_no_mean df c i j ri rj :
  imputed_column c →
  df !! i = Some ri → df !! j = Some rj →
  col c ri = None → col c rj = None →
  partition_mean c df (city ri) = Some 0%Qc →
  partition_mean c df (city rj) = None →
  col c <$> handle_missing_values df !! i = col c <$> handle_missing_values df !! j.
Proof.
  intros Hc Hi Hj Hri Hrj Hmi Hmj.
  destruct (handle_missing_values_lookup df i ri Hi) as (ri' & -> & _ & _ & _ & _ & Hcoli).
  destruct (handle_missing_values_lookup df j rj Hj) as (rj' & -> & _ & _ & _ & _ & Hcolj).
  simpl. f_equal. rewrite (Hcoli c Hc), (Hcolj c Hc).
  unfold imputed_value, city_step_value. rewrite Hri, Hrj, Hmi, Hmj.
  by rewrite bool_decide_eq_true_2.
Qed.

Lemma handle_missing_values_zero_mean_like_no_mean_witness :
  col TemperatureCelsius <$>
    handle_missing_values
      (Examples.df_zero_mean
         ++ [Examples.observation "C" "01/01/2023" "Rainy" None None None]) !! 2
  = col TemperatureCelsius <$>
    handle_missing_values
      (Examples.df_zero_mean
         ++ [Examples.observation "C" "01/01/2023" "Rainy" None None None]) !! 4.
Proof.
  apply (handle_missing_values_zero_mean_like_no_mean _ TemperatureCelsius 2 4
           (Examples.observation "A" "01/03/2023" "Sunny" None
              (Examples.num 50) (Examples.num 10))
           (Examples.observation "C" "01/01/2023" "Rainy" None None None)).
  - by left.
  - reflexivity.
  - reflexivity.
  - reflexivity.
  - reflexivity.
  - apply (bool_decide_unpack _). vm_compute. exact I.
  - reflexivity.
Defined.

End MoreImputationFacts.

(** ** Further facts about the rounding and the derived column *)

Section MoreDerivedFacts.

Import Derived Properties.
Local Open Scope Qc_scope.

Lemma rint_Z n : rint (Qc_of_Z n) = n.
Proof.
  unfold rint. change (this (Qc_of_Z n)) with (inject_Z n). rewrite Qfloor_Z.
  replace (Qc_of_Z n - Qc_of_Z n) with 0 by ring.
  reflexivity.
Qed.

Lemma round2_idemp x : round2 (round2 x) = round2 x.
Proof.
  unfold round2 at 1.
  replace (round2 x * Qc_of_Z 100) with (Qc_of_Z (rint (x * Qc_of_Z 100))).
  - by rewrite rint_Z.
  - unfold round2. field. done.
Qed.

Lemma this_minus (x y : Qc) : (this (x - y) == this x - this y)%Q.
Proof.
  unfold Qcminus, Qcplus, Qcopp, Q2Qc. cbn [this].
  rewrite !Qred_correct. reflexivity.
Qed.

(** The integer [rint] returns is at most one half away. *)
Lemma rint_near x : within (Q2Qc (1 # 2)) (Qc_of_Z (rint x)) x.
Proof.
  unfold within, rint.
  pose proof (Qfloor_le x) as Hlo. pose proof (Qlt_floor x) as Hhi.
  rewrite inject_Z_plus in Hhi. change (inject_Z 1) with 1%Q in Hhi.
  set (n := Qfloor x) in *.
  assert (∀ m, (this (Qc_of_Z m - x) == inject_Z m - this x)%Q) as H1
    by (intros; apply this_minus).
  assert (∀ m, (this (x - Qc_of_Z m) == this x - inject_Z m)%Q) as H2
    by (intros; apply this_minus).
  assert (this (Q2Qc (1 # 2)) == 1 # 2)%Q as Hhalf by reflexivity.
  unfold Qcle.
  destruct (x - Qc_of_Z n ?= Q2Qc (1 # 2)) eqn:E.
  - apply Qceq_alt in E. apply (f_equal this) in E.
    assert (this x - inject_Z n == 1 # 2)%Q as E' by (by rewrite <- H2, E).
    destruct (Z.even n); rewrite H1, H2, Hhalf, ?inject_Z_plus;
      change (inject_Z 1) with 1%Q; split; lra.
  - apply Qclt_alt in E. unfold Qclt in E. rewrite H2, Hhalf in E.
    rewrite H1, H2, Hhalf. split; lra.
  - apply Qcgt_alt in E. rewrite H2, Hhalf in E.
    rewrite H1, H2, Hhalf, inject_Z_plus. change (inject_Z 1) with 1%Q. split; lra.
Qed.

Lemma round2_near x : within (Q2Qc (1 # 200)) (round2 x) x.
Proof.
  destruct (rint_near (x * Qc_of_Z 100)) as [H1 H2].
  unfold within, round2. set (m := rint _) in *.
  assert (∀ a b : Qc, a ≤ b → a / Qc_of_Z 100 ≤ b / Qc_of_Z 100) as Hdiv.
  { intros a b Hab. unfold Qcdiv. apply Qcmult_le_compat_r; [done|].
    apply (bool_decide_unpack _). vm_compute. exact I. }
  assert (Q2Qc (1 # 2) / Qc_of_Z 100 = Q2Qc (1 # 200)) as Hc
    by (apply (bool_decide_unpack _); vm_compute; exact I).
  split.
  - apply Hdiv in H1. rewrite Hc in H1.
    replace ((Qc_of_Z m - x * Qc_of_Z 100) / Qc_of_Z 100)
      with (Qc_of_Z m / Qc_of_Z 100 - x) in H1 by (field; done).
    done.
  - apply Hdiv in H2. rewrite Hc in H2.
    replace ((x * Qc_of_Z 100 - Qc_of_Z m) / Qc_of_Z 100)
      with (x - Qc_of_Z m / Qc_of_Z 100) in H2 by (field; done).
    done.
Qed.

Lemma round2_two_decimals x : two_decimals (round2 x).
Proof. by exists (rint (x * Qc_of_Z 100)). Qed.

(** round_numeric_columns, row by row. *)
Lemma round_numeric_columns_rows df :
  round_numeric_columns df
  = (λ r, mkRow (city r) (date r) (weather_condition r)
            (round2 <$> temperature_celsius r) (round2 <$> humidity_percent r)
            (round2 <$> wind_speed_kph r) (round2 <$> temperature_fahrenheit r))
    <$> df.
Proof.
  unfold round_numeric_columns, round_column. cbn [foldl].
  rewrite <- !list_fmap_compose. apply list_fmap_ext. intros _ r _. by destruct r.
Qed.

Lemma option_fmap_round2_idemp (o : option Qc) :
  round2 <$> (round2 <$> o) = round2 <$> o.
Proof. destruct o; simpl; [|done]. by rewrite round2_idemp. Qed.

(** round_numeric_columns is idempotent. *)
Theorem round_numeric_columns_idempotent df :
  round_numeric_columns (round_numeric_columns df) = round_numeric_columns df.
Proof.
  rewrite !round_numeric_columns_rows, <- list_fmap_compose.
  apply list_fmap_ext. intros _ r _. unfold compose. cbn.
  by rewrite !option_fmap_round2_idemp.
Qed.

(** round_numeric_columns keeps the Records, their order and their other
    fields; a missing value stays missing, and a value becomes a whole
    number of hundredths at most 0.005 away from it. *)
Theorem round_numeric_columns_accuracy df i r :
  df !! i = Some r →
  ∃ r', round_numeric_columns df !! i = Some r' ∧
        city r' = city r ∧ date r' = date r ∧
        weather_condition r' = weather_condition r ∧
        ∀ c, match col c r with
             | None => col c r' = None
             | Some v => ∃ v', col c r' = Some v' ∧ two_decimals v' ∧
                               within (Q2Qc (1 # 200)) v' v
             end.
Proof.
  intros Hi. rewrite round_numeric_columns_rows, list_lookup_fmap, Hi.
  eexists. split; [reflexivity|]. repeat split.
  intros c.
  set (r' := mkRow _ _ _ _ _ _ _).
  assert (col c r' = round2 <$> col c r) as -> by (by destruct c).
  destruct (col c r) as [v|]; [|done].
  exists (round2 v). split; [done|].
  split; [apply round2_two_decimals|apply round2_near].
Qed.

Lemma round_numeric_columns_accuracy_witness :
  ∃ r', round_numeric_columns Examples.df_one !! 0%nat = Some r' ∧
        city r' = "A" ∧ date r' = Str "03/15/2023" ∧
        weather_condition r' = Str "SUNNY" ∧
        ∀ c, match col c (Examples.observation "A" "03/15/2023" "SUNNY"
                            (Examples.frac 23456 1000) (Examples.num 50) (Examples.num 10)) with
             | None => col c r' = None
             | Some v => ∃ v', col c r' = Some v' ∧ two_decimals v' ∧
                               within (Q2Qc (1 # 200)) v' v
             end.
Proof.
  apply (round_numeric_columns_accuracy Examples.df_one 0%nat
           (Examples.observation "A" "03/15/2023" "SUNNY"
              (Examples.frac 23456 1000) (Examples.num 50) (Examples.num 10))).
  reflexivity.
Defined.

(** In main the Fahrenheit column is derived before the rounding: the
    final Fahrenheit value is the rounding of the conversion of the
    Celsius value as it was before it was rounded.  It need not be the
    conversion of the final Celsius value: 23.456 gives 23.46 and 74.22,
    and 23.46 converts to 74.228. *)
Theorem fahrenheit_before_rounding df i r :
  df !! i = Some r →
  (∃ r', round_numeric_columns (add_fahrenheit_column df) !! i = Some r' ∧
         temperature_celsius r' = round2 <$> temperature_celsius r ∧
         temperature_fahrenheit r' = (λ c, round2 (fahrenheit c)) <$> temperature_celsius r) ∧
  round2 (fahrenheit (Qc_of_Z 23456 / Qc_of_Z 1000))
  ≠ round2 (fahrenheit (round2 (Qc_of_Z 23456 / Qc_of_Z 1000))).
Proof.
  intros Hi. split; [|apply (bool_decide_unpack _); vm_compute; exact I].
  rewrite round_numeric_columns_rows. unfold add_fahrenheit_column.
  rewrite !list_lookup_fmap, Hi. eexists. split; [reflexivity|].
  cbn. split; [done|]. by destruct (temperature_celsius r).
Qed.

Lemma fahrenheit_before_rounding_witness :
  (∃ r', round_numeric_columns (add_fahrenheit_column Examples.df_one) !! 0%nat = Some r' ∧
         temperature_celsius r' = round2 <$> Examples.frac 23456 1000 ∧
         temperature_fahrenheit r'
         = (λ c, round2 (fahrenheit c)) <$> Examples.frac 23456 1000) ∧
  round2 (fahrenheit (Qc_of_Z 23456 / Qc_of_Z 1000))
  ≠ round2 (fahrenheit (round2 (Qc_of_Z 23456 / Qc_of_Z 1000))).
Proof.
  apply (fahrenheit_before_rounding Examples.df_one 0%nat
           (Examples.observation "A" "03/15/2023" "SUNNY"
              (Examples.frac 23456 1000) (Examples.num 50) (Examples.num 10))).
  reflexivity.
Defined.

End MoreDerivedFacts.

(** ** Further facts about the pipeline and the report *)

Section MorePipelineFacts.

Import Dates DateSpec Conditions ConditionSpec Imputation ImputationSpec Derived.
Import Report Properties.


(** The stages after the two filters, row by row. *)
Lemma pipeline_rows df :
  pipeline df
  = (λ r, mkRow (city r) (date r) (weather_condition r)
            (round2 <$> temperature_celsius r) (round2 <$> humidity_percent r)
            (round2 <$> wind_speed_kph r)
            (round2 <$> (fahrenheit <$> temperature_celsius r)))
    <$> handle_missing_values (clean_weather_conditions (clean_dates df)).
Proof.
  unfold pipeline. rewrite round_numeric_columns_rows. unfold add_fahrenheit_column.
  rewrite <- list_fmap_compose. apply list_fmap_ext. intros _ r _. by destruct r.
Qed.





(** In the cleaned dataset each of the three imputed columns is either
    complete or missing on every Record. *)
Theorem pipeline_column_complete_or_missing df c r1 r2 :
  imputed_column c →
  r1 ∈ pipeline df → r2 ∈ pipeline df →
  col c r1 = None → col c r2 = None.
Proof.
  intros Hc. rewrite pipeline_rows.
  intros (x1 & -> & H1)%list_elem_of_fmap (x2 & -> & H2)%list_elem_of_fmap Hnone.
  set (df2 := clean_weather_conditions (clean_dates df)) in *.
  assert (∀ x, col c (mkRow (city x) (date x) (weather_condition x)
            (round2 <$> temperature_celsius x) (round2 <$> humidity_percent x)
            (round2 <$> wind_speed_kph x)
            (round2 <$> (fahrenheit <$> temperature_celsius x)))
          = round2 <$> col c x) as Hcol
    by (intros x; by destruct Hc as [-> | [-> | ->]]).
  rewrite Hcol in *.
  assert (col c x1 = None) as Hx1 by (by destruct (col c x1)).
  destruct (col c x2) as [v2|] eqn:Hx2; [|done].
  apply elem_of_handle_missing_values in H2 as (y2 & Hy2 & Hcol2).
  rewrite (Hcol2 c Hc) in Hx2.
  assert (∃ y v, y ∈ df2 ∧ col c y = Some v) as (y & v & Hy & Hv).
  { destruct (present c df2) as [|v0 l] eqn:Hp.
    - rewrite imputed_value_all_missing in Hx2; [done| |];
        eauto using present_nil_all_missing.
    - assert (v0 ∈ present c df2) as Hin by (rewrite Hp; by left).
      apply list_elem_of_omap in Hin as (y & Hy & Hv). by exists y, v0. }
  apply elem_of_handle_missing_values in H1 as (y1 & Hy1 & Hcol1).
  rewrite (Hcol1 c Hc) in Hx1. unfold imputed_value in Hx1.
  destruct (city_step_value c df2 y1); [done|].
  destruct (mean_is_Some (omap (city_step_value c df2) df2)) as [m Hm].
  - apply (omap_not_nil _ _ y v); [done|]. unfold city_step_value. by rewrite Hv.
  - unfold global_fallback in Hx1. congruence.
Qed.

Lemma pipeline_column_complete_or_missing_witness :
  col HumidityPercent
    (mkRow "A" (Str "2023-03-15") (Str "Sunny") (Examples.num 10) None
       (Examples.num 7) (Examples.num 50)) = None.
Proof.
  apply (pipeline_column_complete_or_missing
           [ Examples.observation "A" "03/15/2023" "sunny" (Examples.num 10) None None;
             Examples.observation "B" "03/16/2023" "rainy" None None (Examples.num 7) ]
           HumidityPercent
           (mkRow "B" (Str "2023-03-16") (Str "Rainy") (Examples.num 10) None
              (Examples.num 7) (Examples.num 50))).
  - right. by left.
  - apply (bool_decide_unpack _). vm_compute. exact I.
  - apply (bool_decide_unpack _). vm_compute. exact I.
  - reflexivity.
Defined.

Lemma city_clean_dates_sublist df : city <$> clean_dates df `sublist_of` city <$> df.
Proof.
  induction df as [|r df IH]; [done|].
  rewrite clean_dates_cons, fmap_cons.
  destruct (strftime <$> _) as [s|].
  - rewrite fmap_cons. by apply sublist_skip.
  - by apply sublist_cons.
Qed.

Lemma city_clean_weather_conditions_sublist df :
  city <$> clean_weather_conditions df `sublist_of` city <$> df.
Proof.
  induction df as [|r df IH]; [done|].
  rewrite clean_weather_conditions_cons, fmap_cons.
  destruct (condition_kept _).
  - cbn [app]. rewrite fmap_cons. by apply sublist_skip.
  - by apply sublist_cons.
Qed.

(** The pipeline adds no Record and keeps the order: the cities of the
    cleaned dataset are cities of the input, in the same order. *)
Theorem pipeline_cities_sublist df : city <$> pipeline df `sublist_of` city <$> df.
Proof.
  rewrite pipeline_rows, <- list_fmap_compose.
  rewrite (list_fmap_ext _ city _ (λ _ _ _, eq_refl)).
  rewrite handle_missing_values_rows, <- list_fmap_compose.
  rewrite (list_fmap_ext _ city (clean_weather_conditions _)).
  - etrans; [apply city_clean_weather_conditions_sublist|apply city_clean_dates_sublist].
  - intros _ r _. unfold compose. by rewrite !city_set_col.
Qed.

Lemma groupby_mean_fmap c (g : row → row) df :
  (∀ r, city (g r) = city r) → (∀ r, col c (g r) = col c r) →
  groupby_mean c (g <$> df) = groupby_mean c df.
Proof.
  intros Hcity Hcol. unfold groupby_mean.
  rewrite <- list_fmap_compose.
  rewrite (list_fmap_ext (city ∘ g) city df (λ _ r _, Hcity r)).
  apply list_fmap_ext. intros _ k _. f_equal.
  by apply (partition_mean_fmap c g df k).
Qed.

(** The report reads the cities and the Celsius column only. *)
Theorem generate_city_temperature_report_reads (g : row → row) df :
  (∀ r, city (g r) = city r) →
  (∀ r, temperature_celsius (g r) = temperature_celsius r) →
  generate_city_temperature_report (g <$> df) = generate_city_temperature_report df.
Proof.
  intros Hcity Hcol. unfold generate_city_temperature_report.
  by rewrite (groupby_mean_fmap TemperatureCelsius g df Hcity Hcol).
Qed.

Lemma generate_city_temperature_report_reads_witness :
  generate_city_temperature_report (set_col HumidityPercent None <$> Examples.df_ranking)
  = generate_city_temperature_report Examples.df_ranking.
Proof.
  apply (generate_city_temperature_report_reads (set_col HumidityPercent None)).
  - intros r. reflexivity.
  - intros r. reflexivity.
Defined.

End MorePipelineFacts.

(** ** Facts about clean_dates, the range of Timestamp left open *)

Section TimestampFacts.

Import Dates Timestamps DateSpec.

Lemma number_from_decimal acc s :
  number_from acc s = acc * 10 ^ String.length s + decimal s.
Proof.
  revert acc. induction s as [|c s IH]; intros acc; cbn [number_from decimal String.length].
  - rewrite Nat.pow_0_r. lia.
  - rewrite IH, Nat.pow_succ_r'. unfold digit_val. lia.
Qed.

Lemma number_decimal s : number s = decimal s.
Proof. unfold number. rewrite number_from_decimal. lia. Qed.

Lemma is_leap_spec y : is_leap y = true ↔ leap_year y.
Proof.
  unfold is_leap, leap_year.
  rewrite andb_true_iff, orb_true_iff, negb_true_iff, !Nat.eqb_eq, Nat.eqb_neq.
  by rewrite !Nat.Lcm0.mod_divide.
Qed.

Lemma valid_month_day_spec y m d :
  valid_month_day y m d = true ↔ calendar_date y m d.
Proof.
  unfold valid_month_day, calendar_date, month_length.
  rewrite !andb_true_iff, !Nat.leb_le. split.
  - intros [[[Hm1 Hm12] Hd1] Hd]. exists (days_in_month y m). split; [|lia].
    assert (m = 2 ∨ m ∈ [1; 3; 5; 7; 8; 10; 12] ∨ m ∈ [4; 6; 9; 11]) as Hm.
    { rewrite !elem_of_cons. lia. }
    destruct Hm as [-> | [Hm | Hm]].
    + cbn [days_in_month]. destruct (is_leap y) eqn:E.
      * right. right. left. by rewrite <- is_leap_spec.
      * right. right. right. rewrite <- is_leap_spec, E. done.
    + left. split; [done|]. rewrite !elem_of_cons, elem_of_nil in Hm.
      by destruct Hm as [-> | [-> | [-> | [-> | [-> | [-> | [-> | []]]]]]]].
    + right. left. split; [done|]. rewrite !elem_of_cons, elem_of_nil in Hm.
      by destruct Hm as [-> | [-> | [-> | [-> | []]]]].
  - intros (n & Hn & Hd).
    destruct Hn as [[Hm ->] | [[Hm ->] | [(-> & Hl & ->) | (-> & Hl & ->)]]].
    + rewrite !elem_of_cons, elem_of_nil in Hm.
      destruct Hm as [-> | [-> | [-> | [-> | [-> | [-> | [-> | []]]]]]]];
        cbn [days_in_month]; lia.
    + rewrite !elem_of_cons, elem_of_nil in Hm.
      destruct Hm as [-> | [-> | [-> | [-> | []]]]]; cbn [days_in_month]; lia.
    + apply is_leap_spec in Hl. cbn [days_in_month]. rewrite Hl. lia.
    + cbn [days_in_month]. destruct (is_leap y) eqn:E; [|lia].
      by apply is_leap_spec in E.
Qed.

Lemma zfill_two_digits g : 1 ≤ String.length g ≤ 2 → zfill 2 g = two_digits g.
Proof. destruct g as [|a [|b [|]]]; simpl; intros; (done || lia). Qed.

Lemma canonical_year_month_day g1 g2 g3 :
  1 ≤ String.length g1 ≤ 2 → 1 ≤ String.length g2 ≤ 2 →
  canonical g1 g2 g3 = year_month_day g1 g2 g3.
Proof.
  intros H1 H2. unfold canonical, year_month_day. by rewrite !zfill_two_digits.
Qed.

Lemma to_datetime_within_canonical representable g1 g2 g3 :
  all_digits g1 = true → 1 ≤ String.length g1 ≤ 2 →
  all_digits g2 = true → 1 ≤ String.length g2 ≤ 2 →
  all_digits g3 = true → String.length g3 = 4 →
  strftime <$> to_datetime_within representable (canonical g1 g2 g3)
  = if valid_month_day (number g3) (number g1) (number g2)
       && representable (mkDate (number g3) (number g1) (number g2))
    then Some (canonical g1 g2 g3) else None.
Proof.
  intros Hd1 Hl1 Hd2 Hl2 Hd3 Hl3. unfold canonical.
  destruct (zfill2_number g1 Hd1 Hl1) as (m1 & m2 & -> & Hm1 & Hm2 & <-).
  destruct (zfill2_number g2 Hd2 Hl2) as (d1 & d2 & -> & Hdd1 & Hdd2 & <-).
  destruct (length4 g3 Hl3) as (y1 & y2 & y3 & y4 & ->).
  rewrite !string_app_cons, !string_app_nil_l.
  unfold to_datetime_within. rewrite Hd3.
  replace (all_digits (String m1 (String m2 EmptyString))) with true
    by (simpl; by rewrite Hm1, Hm2).
  replace (all_digits (String d1 (String d2 EmptyString))) with true
    by (simpl; by rewrite Hdd1, Hdd2).
  cbn [andb].
  destruct (valid_month_day _ _ _ && representable _); [|done].
  simpl in Hd3. repeat (apply andb_true_iff in Hd3 as [? Hd3]).
  cbn [fmap option_fmap option_map]. unfold strftime. cbn [year month day].
  rewrite pad4_number, !pad2_number by done.
  by rewrite !string_app_cons, !string_app_nil_l.
Qed.

(** What clean_dates does to one row. *)
Lemma clean_dates_within_cons representable r df :
  clean_dates_within representable (r :: df) =
  match strftime <$> (standardize_date (date r) ≫= to_datetime_within representable) with
  | Some s => set_date (Str s) r :: clean_dates_within representable df
  | None => clean_dates_within representable df
  end.
Proof.
  unfold clean_dates_within, dropna_snd. rewrite filter_cons.
  destruct (decide (isna (date r) = false)) as [Hna|Hna].
  - rewrite !fmap_cons. cbn [omap list_omap fst snd].
    destruct (standardize_date (date r)) as [s|]; [|done].
    rewrite !fmap_cons. cbn [omap list_omap fst snd mbind option_bind].
    destruct (to_datetime_within representable s) as [t|]; done.
  - destruct (date r); try done.
Qed.

Lemma clean_row_within_spec representable r s :
  strftime <$> (standardize_date (date r) ≫= to_datetime_within representable) = Some s ↔
  ∃ t sep g1 g2 g3,
    date r = Str t ∧ sep ∈ separators ∧ date_pattern sep t g1 g2 g3 ∧
    calendar_date (decimal g3) (decimal g1) (decimal g2) ∧
    representable (mkDate (decimal g3) (decimal g1) (decimal g2)) = true ∧
    s = year_month_day g1 g2 g3.
Proof.
  split.
  - destruct (date r) as [|t|]; try done. unfold standardize_date.
    destruct (first_match patterns t) as [f|] eqn:E; [|done].
    apply first_match_spec in E as (sep & g1 & g2 & g3 & Hsep & Hp & ->).
    pose proof Hp as (Hd1 & Hl1 & Hd2 & Hl2 & Hd3 & Hl3 & _).
    change (strftime <$> to_datetime_within representable (canonical g1 g2 g3) = Some s →
            ∃ t0 sep0 g1' g2' g3', Str t = Str t0 ∧ sep0 ∈ separators ∧
              date_pattern sep0 t0 g1' g2' g3' ∧
              calendar_date (decimal g3') (decimal g1') (decimal g2') ∧
              representable (mkDate (decimal g3') (decimal g1') (decimal g2')) = true ∧
              s = year_month_day g1' g2' g3').
    rewrite to_datetime_within_canonical by done.
    destruct (valid_month_day _ _ _) eqn:Hv; [|done].
    destruct (representable _) eqn:Hr; [|done]. intros [= <-].
    exists t, sep, g1, g2, g3. rewrite <- !number_decimal.
    rewrite <- valid_month_day_spec, canonical_year_month_day by done. done.
  - intros (t & sep & g1 & g2 & g3 & -> & Hsep & Hp & Hc & Hr & ->).
    unfold standardize_date.
    pose proof Hp as (Hd1 & Hl1 & Hd2 & Hl2 & Hd3 & Hl3 & _).
    assert (first_match patterns t = Some (canonical g1 g2 g3)) as ->.
    { apply first_match_spec. by exists sep, g1, g2, g3. }
    change (strftime <$> to_datetime_within representable (canonical g1 g2 g3)
            = Some (year_month_day g1 g2 g3)).
    rewrite to_datetime_within_canonical by done.
    rewrite <- !number_decimal in Hc, Hr.
    apply valid_month_day_spec in Hc. rewrite Hc, Hr.
    by rewrite canonical_year_month_day.
Qed.

(** [Dates.to_datetime] is the library that holds every year from 1 on. *)
Lemma to_datetime_within_from_year_one s :
  to_datetime_within from_year_one s = to_datetime s.
Proof.
  unfold to_datetime_within, to_datetime, valid_date, valid_month_day, from_year_one.
  do 10 (destruct s as [|? s]; [done|]). destruct s; [|by repeat case_match].
  repeat case_match; try done; cbn [year] in *;
    repeat (match goal with
            | H : context [all_digits ?x] |- _ => destruct (all_digits x)
            | H : context [?a <=? ?b] |- _ => destruct (a <=? b)
            end); done.
Qed.

Lemma clean_dates_within_from_year_one df :
  clean_dates_within from_year_one df = clean_dates df.
Proof.
  induction df as [|r df IH]; [done|].
  rewrite clean_dates_within_cons, clean_dates_cons, IH.
  destruct (standardize_date (date r)) as [s|]; [|done].
  cbn [mbind option_bind]. by rewrite to_datetime_within_from_year_one.
Qed.

(** C5, as the code has it: clean_dates keeps exactly the Records whose
    date string matches one of the three patterns and whose groups, read
    as month, day and year, name a day of the calendar that the Timestamp
    of the installed pandas can hold; every other Record is dropped, the
    order of the Records is kept, and the date of a Record that is kept
    is the string YYYY-MM-DD built from the groups, month and day padded
    to two digits. *)
Theorem clean_dates_keeps_representable representable df :
  cleaned representable df (clean_dates_within representable df) ∧
  Forall (λ r', ∃ s, date r' = Str s ∧ iso_shape s) (clean_dates_within representable df).
Proof.
  induction df as [|r df [IH1 IH2]]; [by split; constructor|].
  rewrite clean_dates_within_cons.
  destruct (strftime <$> _) as [s|] eqn:E.
  - apply clean_row_within_spec
      in E as (t & sep & g1 & g2 & g3 & Ht & Hsep & Hp & Hc & Hr & ->).
    split.
    + apply cleaned_keep; [|done]. by exists t, sep, g1, g2, g3.
    + constructor; [|done]. exists (year_month_day g1 g2 g3). split; [done|].
      destruct Hp as (? & ? & ? & ? & ? & ? & _).
      rewrite <- canonical_year_month_day by done. by apply canonical_iso_shape.
  - split; [|done]. apply cleaned_drop; [|done].
    intros r' (t & sep & g1 & g2 & g3 & Ht & Hsep & Hp & Hc & Hr & _).
    assert (strftime <$> (standardize_date (date r) ≫= to_datetime_within representable)
            = Some (year_month_day g1 g2 g3)) as E'.
    { apply clean_row_within_spec. by exists t, sep, g1, g2, g3. }
    congruence.
Qed.

(** C5 fails as it is stated: 01/01/1500 matches the first pattern and
    the first of January 1500 is a day of the calendar, yet with the
    nanosecond Timestamp of pandas 2.x the Record is dropped. *)
Lemma clean_dates_drops_year_1500 :
  re_match "/" "01/01/1500" = Some ("01", "01", "1500") ∧
  calendar_date (decimal "1500") (decimal "01") (decimal "01") ∧
  clean_dates_within nanosecond_range Examples.df_year_1500 = [].
Proof.
  split; [reflexivity|]. split; [|reflexivity].
  apply valid_month_day_spec. reflexivity.
Qed.

End TimestampFacts.
